(** * console-monkey-patch: the interception and dispatch engine

    A shallow embedding of [ConsoleMonkeyPatch] (the class of
    console-monkey-patch.ts) and of the JavaScript built-ins it calls,
    followed by the properties of the engine.

    Conventions of the model:
    - a JavaScript string is a [string] whose characters are code units
      below 256;
    - a number is an integer-valued double below 10^21 in magnitude,
      held as a [Z] and printed in decimal;
    - argument values are trees (no cycles, no [toJSON] members, no
      symbols or bigints); a property list gives the own enumerable
      properties of a plain object in enumeration order;
    - a logger instance lives in a heap and is reached through its
      location, so that a proxy sees later mutations of its target; it
      has its own enumerable members, which a spread copies, and the
      members its prototype chain supplies, which member access finds
      and a spread passes over;
    - a call of a function the engine does not define (a callback sink,
      a method of a backing logger) is recorded as an event; the value
      it returns is given by an oracle, and it is assumed to return
      and to leave the engine and the heap alone. *)

From Stdlib Require Import ZArith Ascii String DecimalString List Bool Lia.
From stdpp Require Import base option gmap strings list fin_maps.

Local Open Scope string_scope.
Local Open Scope list_scope.

(** ** Strings: the built-ins of [String.prototype] the engine uses *)

Module JsString.

(** WhiteSpace and LineTerminator code units below 256: TAB, LF, VT, FF,
    CR, SP and NBSP. *)
Definition is_space (c : ascii) : bool :=
  let n := nat_of_ascii c in
  (Nat.eqb n 9 || Nat.eqb n 10 || Nat.eqb n 11 || Nat.eqb n 12
   || Nat.eqb n 13 || Nat.eqb n 32 || Nat.eqb n 160)%bool.

Definition is_empty (s : string) : bool :=
  match s with EmptyString => true | String _ _ => false end.

Fixpoint trimStart (s : string) : string :=
  match s with
  | EmptyString => EmptyString
  | String c s' => if is_space c then trimStart s' else s
  end.

Fixpoint trimEnd (s : string) : string :=
  match s with
  | EmptyString => EmptyString
  | String c s' =>
      let t := trimEnd s' in
      if (is_space c && is_empty t)%bool then EmptyString else String c t
  end.

(** [s.trim()]: white space removed from both ends. *)
Definition trim (s : string) : string := trimEnd (trimStart s).

(** [parts.join(sep)] on strings. *)
Fixpoint join (sep : string) (parts : list string) : string :=
  match parts with
  | [] => ""
  | [p] => p
  | p :: rest => p +:+ sep +:+ join sep rest
  end.

Fixpoint concat_all (parts : list string) : string :=
  match parts with
  | [] => ""
  | p :: rest => p +:+ concat_all rest
  end.

(** [s.startsWith(p)]. *)
Fixpoint startsWith (p s : string) : bool :=
  match p, s with
  | EmptyString, _ => true
  | String a p', String b s' => (Ascii.eqb a b && startsWith p' s')%bool
  | String _ _, EmptyString => false
  end.

Fixpoint drop (n : nat) (s : string) : string :=
  match n, s with
  | O, _ => s
  | S n', String _ s' => drop n' s'
  | S _, EmptyString => EmptyString
  end.

(** [split_at p s]: the text before and after the first occurrence of
    [p] in [s], if there is one ([s.indexOf(p)] and the two slices). *)
Fixpoint split_at (p s : string) : option (string * string) :=
  if startsWith p s then Some ("", drop (String.length p) s)
  else match s with
       | EmptyString => None
       | String c s' =>
           match split_at p s' with
           | Some (before, after) => Some (String c before, after)
           | None => None
           end
       end.

(** [s.includes(p)]. *)
Definition includes (s p : string) : bool :=
  match split_at p s with Some _ => true | None => false end.

(** GetSubstitution for a string pattern (no captures, no named
    groups): in the replacement text [$$] is a dollar sign, [$&] the
    matched text, [$`] the text before the match, [$'] the text after
    it; every other character stands for itself. *)
Fixpoint getSubstitution (matched before after templ : string) : string :=
  match templ with
  | EmptyString => EmptyString
  | String c rest =>
      if Ascii.eqb c "$" then
        match rest with
        | String d rest' =>
            if Ascii.eqb d "$" then
              String "$" (getSubstitution matched before after rest')
            else if Ascii.eqb d "&" then
              matched +:+ getSubstitution matched before after rest'
            else if Ascii.eqb d "`" then
              before +:+ getSubstitution matched before after rest'
            else if Ascii.eqb d "'" then
              after +:+ getSubstitution matched before after rest'
            else String c (getSubstitution matched before after rest)
        | EmptyString => String c EmptyString
        end
      else String c (getSubstitution matched before after rest)
  end.

(** [s.replace(p, r)] with a string pattern: the first occurrence only. *)
Definition replace (s p r : string) : string :=
  match split_at p s with
  | None => s
  | Some (before, after) =>
      before +:+ getSubstitution p before after r +:+ after
  end.

(** The last code unit of a string. *)
Fixpoint last_char (s : string) : option ascii :=
  match s with
  | EmptyString => None
  | String c s' => match last_char s' with Some d => Some d | None => Some c end
  end.

End JsString.

(** ** Values *)

(** A function object: its identity and its source text (what
    [Function.prototype.toString] gives). *)
Record FunRef : Type := mkFun { fn_id : nat; fn_source : string }.

#[warnings="-register-all"] Inductive JsVal : Type :=
| VUndefined
| VNull
| VBool (b : bool)
| VNum (n : Z)
| VStr (s : string)
| VFun (f : FunRef)
| VArr (items : list JsVal)
| VObj (props : list (string * JsVal)).

Definition typeof (v : JsVal) : string :=
  match v with
  | VUndefined => "undefined"
  | VNull | VArr _ | VObj _ => "object"
  | VBool _ => "boolean"
  | VNum _ => "number"
  | VStr _ => "string"
  | VFun _ => "function"
  end.

(** ToBoolean. *)
Definition truthy (v : JsVal) : bool :=
  match v with
  | VUndefined | VNull => false
  | VBool b => b
  | VNum n => negb (Z.eqb n 0)
  | VStr s => negb (JsString.is_empty s)
  | VFun _ | VArr _ | VObj _ => true
  end.

Definition number_to_string (n : Z) : string :=
  NilEmpty.string_of_int (Z.to_int n).

(** ToString, as a template literal or [String(v)] applies it. An
    array joins its elements with commas, [null] and [undefined]
    elements giving the empty string. *)
Fixpoint ToString (v : JsVal) : string :=
  match v with
  | VUndefined => "undefined"
  | VNull => "null"
  | VBool true => "true"
  | VBool false => "false"
  | VNum n => number_to_string n
  | VStr s => s
  | VFun f => fn_source f
  | VArr items =>
      JsString.join ","
        (List.map (fun e => match e with
                            | VUndefined | VNull => ""
                            | _ => ToString e
                            end) items)
  | VObj _ => "[object Object]"
  end.

(** *** JSON.stringify *)

Definition dquote : ascii := ascii_of_nat 34.

Definition hex_digit (n : nat) : ascii :=
  ascii_of_nat (if Nat.ltb n 10 then 48 + n else 87 + n).

(** QuoteJSONString, one code unit. *)
Definition json_escape (c : ascii) : string :=
  let n := nat_of_ascii c in
  if Nat.eqb n 34 then String "\" (String dquote "")
  else if Nat.eqb n 92 then "\\"
  else if Nat.eqb n 8 then "\b"
  else if Nat.eqb n 9 then "\t"
  else if Nat.eqb n 10 then "\n"
  else if Nat.eqb n 12 then "\f"
  else if Nat.eqb n 13 then "\r"
  else if Nat.ltb n 32 then
    "\u00" +:+ String (hex_digit (n / 16)) (String (hex_digit (n mod 16)) "")
  else String c "".

Fixpoint json_quote_body (s : string) : string :=
  match s with
  | EmptyString => EmptyString
  | String c s' => json_escape c +:+ json_quote_body s'
  end.

Definition json_quote (s : string) : string :=
  String dquote (json_quote_body s +:+ String dquote "").

(** [JSON.stringify(v)] with no replacer and no indentation. [None] is
    the value [undefined], which it returns for [undefined] and for a
    function. In an array such an element is written [null]; in an
    object such a member is left out. *)
Fixpoint JSON_stringify (v : JsVal) : option string :=
  match v with
  | VUndefined | VFun _ => None
  | VNull => Some "null"
  | VBool true => Some "true"
  | VBool false => Some "false"
  | VNum n => Some (number_to_string n)
  | VStr s => Some (json_quote s)
  | VArr items =>
      Some ("[" +:+
            JsString.join ","
              (List.map (fun e => match JSON_stringify e with
                                  | Some t => t
                                  | None => "null"
                                  end) items)
            +:+ "]")
  | VObj props =>
      Some ("{" +:+
            JsString.join ","
              ((fix members (ps : list (string * JsVal)) : list string :=
                  match ps with
                  | [] => []
                  | (k, x) :: ps' =>
                      match JSON_stringify x with
                      | Some t => (json_quote k +:+ ":" +:+ t) :: members ps'
                      | None => members ps'
                      end
                  end) props)
            +:+ "}")
  end.

(** The value [JSON.stringify] returns, as a JavaScript value. *)
Definition JSON_stringify_val (v : JsVal) : JsVal :=
  match JSON_stringify v with
  | Some t => VStr t
  | None => VUndefined
  end.

(** ** The engine's state *)

Definition loc := nat.

(** [WritableContext]: the two channels. Each holds a string (an
    accumulator), a function (a callback) or anything else ([null] when
    the channel is switched off). Further handlers of a context are
    never read by the engine and are left out. *)
Record WritableContext : Type := mkContext { stdout : JsVal; stderr : JsVal }.

(** What a call of an outside function was applied to. *)
Inductive Receiver : Type :=
| RNone                (* [target(message)] *)
| RSnapshot            (* [this.originalUnpatchedConsoleInstance] *)
| RTarget (l : loc)    (* the object a proxy wraps *)
| RSurface.            (* [this.console], a method reached through it *)

Record Event : Type :=
  Call { callee : FunRef; receiver : Receiver; arguments : list JsVal }.

(** An object of the heap: its own enumerable members, and what
    member access finds for the other names, up the prototype chain
    (the functions of [Object.prototype] for a plain object, the
    methods of its class for a class instance; own members that are
    not enumerable count with them). *)
Record JsObject : Type := mkObject {
  own_members : gmap string JsVal;
  inherited_members : gmap string JsVal
}.

(** [this.console]: the object [createDefaultConsole] built, or the
    proxy [createProxy] built around a logger instance. *)
Inductive Surface : Type :=
| DefaultConsole (hookMode : bool)
| ProxyConsole (target : loc) (hookMode : bool).

Record State : Type := mkState {
  context : WritableContext;
  timers : gmap string Z;
  console : Surface;
  originalUnpatchedConsoleInstance : gmap string JsVal;
  heap : gmap loc JsObject;
  events : list Event;
  ticks : nat
}.

Definition set_context (c : WritableContext) (st : State) : State :=
  mkState c (timers st) (console st) (originalUnpatchedConsoleInstance st)
          (heap st) (events st) (ticks st).

Definition set_timers (t : gmap string Z) (st : State) : State :=
  mkState (context st) t (console st) (originalUnpatchedConsoleInstance st)
          (heap st) (events st) (ticks st).

Definition set_console (s : Surface) (st : State) : State :=
  mkState (context st) (timers st) s (originalUnpatchedConsoleInstance st)
          (heap st) (events st) (ticks st).

Definition set_heap (h : gmap loc JsObject) (st : State) : State :=
  mkState (context st) (timers st) (console st)
          (originalUnpatchedConsoleInstance st) h (events st) (ticks st).

Definition add_event (e : Event) (st : State) : State :=
  mkState (context st) (timers st) (console st)
          (originalUnpatchedConsoleInstance st) (heap st)
          (events st ++ [e]) (ticks st).

Definition tick (st : State) : State :=
  mkState (context st) (timers st) (console st)
          (originalUnpatchedConsoleInstance st) (heap st)
          (events st) (S (ticks st)).

(** ** Computations of the engine: state, and a thrown TypeError *)

Inductive Outcome (A : Type) : Type :=
| Returned (a : A)
| Thrown (msg : string).
Arguments Returned {A} a.
Arguments Thrown {A} msg.

Definition M (A : Type) : Type := State -> Outcome A * State.

Definition ret {A} (a : A) : M A := fun st => (Returned a, st).

Definition bind {A B} (m : M A) (k : A -> M B) : M B :=
  fun st => match m st with
            | (Returned a, st') => k a st'
            | (Thrown msg, st') => (Thrown msg, st')
            end.

Definition throw {A} (msg : string) : M A := fun st => (Thrown msg, st).

Definition modify (f : State -> State) : M unit := fun st => (Returned tt, f st).

Definition gets {A} (f : State -> A) : M A := fun st => (Returned (f st), st).

Declare Scope engine_scope.
Delimit Scope engine_scope with engine.
Notation "'let!' x ':=' m 'in' k" := (bind m (fun x => k))
  (at level 10, x name, m at level 100, k at level 200) : engine_scope.
Notation "m '>>' k" := (bind m (fun _ => k))
  (at level 100, k at level 200, right associativity) : engine_scope.
Local Open Scope engine_scope.

(** [v[k]] on a property map, [undefined] when there is no such member. *)
Definition get_member (o : gmap string JsVal) (k : string) : JsVal :=
  match o !! k with Some v => v | None => VUndefined end.

(** [target[prop]] on a heap object: an own member first, then what
    the prototype chain supplies. *)
Definition get_prop (h : gmap loc JsObject) (l : loc) (k : string) : JsVal :=
  match h !! l with
  | Some o =>
      match own_members o !! k with
      | Some v => v
      | None => get_member (inherited_members o) k
      end
  | None => VUndefined
  end.

(** The outside world: what a call of an outside function returns
    (given the calls made so far), what [Date.now()] reads and what
    [new Error().stack] holds, the last two at each reading. *)
Record Env : Type := mkEnv {
  respond : FunRef -> list JsVal -> list Event -> JsVal;
  Date_now : nat -> Z;
  Error_stack : nat -> option string
}.

(** ** The class *)

Section ConsoleMonkeyPatch.

Variable env : Env.

(** [Reflect.apply(f, receiver, args)] and plain calls of a function
    from outside. *)
Definition call (f : FunRef) (r : Receiver) (args : list JsVal) : M JsVal :=
  fun st => (Returned (respond env f args (events st)), add_event (Call f r args) st).

Definition read_clock : M Z :=
  fun st => (Returned (Date_now env (ticks st)), tick st).

Definition read_stack : M (option string) :=
  fun st => (Returned (Error_stack env (ticks st)), tick st).

Definition is_error_method (method : string) : bool :=
  (String.eqb method "error" || String.eqb method "warn")%bool.

Definition newline : string := String (ascii_of_nat 10) "".

(** [writeToTarget(method, message)]. *)
Definition writeToTarget (method : string) (message : string) : M unit :=
  fun st =>
    let target :=
      if is_error_method method then stderr (context st) else stdout (context st) in
    match target with
    | VFun f => (call f RNone [VStr message] >> ret tt) st
    | VStr acc =>
        let updated := VStr (acc +:+ message +:+ newline) in
        (Returned tt,
         set_context
           (if is_error_method method
            then mkContext (stdout (context st)) updated
            else mkContext updated (stderr (context st))) st)
    | _ => (Returned tt, st)
    end.

(** One turn of the loop of [logOrSend]: what [message +=] appends for
    one argument. *)
Definition format_arg (arg : JsVal) : string :=
  if String.eqb (typeof arg) "object"
  then match JSON_stringify arg with Some t => t | None => "undefined" end
  else ToString arg +:+ " ".

Definition build_message (args : list JsVal) : string :=
  fold_left (fun message arg => message +:+ format_arg arg) args "".

Definition formattedMessage (args : list JsVal) : string :=
  "LOG: " +:+ JsString.trim (build_message args).

(** The function [logOrSend(method, hookMode)] returns, applied to
    [args]. *)
Definition logOrSend (method : string) (hookMode : bool) (args : list JsVal) : M JsVal :=
  writeToTarget method (formattedMessage args) >>
  let! snapshot := gets originalUnpatchedConsoleInstance in
  let originalMethod := get_member snapshot method in
  if (hookMode && truthy originalMethod)%bool then
    match originalMethod with
    | VFun f => call f RSnapshot args
    | _ => ret VUndefined
    end
  else ret VUndefined.

(** *** createProxy *)

(** What the [get] trap of the proxy returns. *)
Inductive Method : Type :=
| Passthrough (v : JsVal)
    (* the value found on the target itself: [targetMethod], or
       [Reflect.get(target, prop)] *)
| ProxyAssert (hookMode : bool)
| HookWrapper (targetMethod : FunRef) (target : loc) (hookMode : bool).

Definition proxy_get (h : gmap loc JsObject) (target : loc)
    (hookMode : bool) (prop : string) : Method :=
  let targetMethod := get_prop h target prop in
  if String.eqb prop "assert" then ProxyAssert hookMode
  else match targetMethod with
       | VFun f =>
           if negb hookMode then Passthrough targetMethod
           else HookWrapper f target hookMode
       | _ => Passthrough (get_prop h target prop)
       end.

Definition first_arg (args : list JsVal) : JsVal :=
  match args with [] => VUndefined | a :: _ => a end.

(** Calling what the trap returned: [surface[prop](...args)]. *)
Definition invoke (m : Method) (args : list JsVal) : M JsVal :=
  match m with
  | Passthrough (VFun f) => call f RSurface args
  | Passthrough _ => throw "TypeError: not a function"
  | ProxyAssert hookMode =>
      let condition := first_arg args in
      let data := tail args in
      if negb (truthy condition)
      then logOrSend "log" hookMode (VStr "Assertion failed:" :: data)
      else ret VUndefined
  | HookWrapper targetMethod target hookMode =>
      let! output := call targetMethod (RTarget target) args in
      (if hookMode then call targetMethod (RTarget target) [output] >> ret tt
       else ret tt) >>
      ret output
  end.

(** [this.console[prop]?.(...args)], as [time] and [timeEnd] report:
    through whatever surface the engine holds at that moment. On the
    synthesized surface [log] and [error] are the functions
    [logOrSend] returned. *)
Definition this_console_call (prop : string) (args : list JsVal) : M JsVal :=
  fun st =>
    match console st with
    | DefaultConsole hookMode => logOrSend prop hookMode args st
    | ProxyConsole target hookMode =>
        match proxy_get (heap st) target hookMode prop with
        | Passthrough VUndefined | Passthrough VNull => (Returned VUndefined, st)
        | m => invoke m args st
        end
    end.

(** *** createDefaultConsole *)

(** [table]. *)
Definition console_table (hookMode : bool) (args : list JsVal) : M JsVal :=
  let data := first_arg args in
  let optionalParams := tail args in
  let formattedData := JSON_stringify_val data in
  logOrSend "table" hookMode (formattedData :: optionalParams).

(** How [Array.prototype.join] writes one element. *)
Definition join_element (v : JsVal) : string :=
  match v with
  | VUndefined | VNull => ""
  | _ => ToString v
  end.

(** The message [assert] builds when the condition fails. *)
Definition assert_message (data : list JsVal) : string :=
  let joined :=
    "Assertion failed: " +:+
    JsString.join " "
      (List.map join_element
         (List.map (fun arg => if String.eqb (typeof arg) "object"
                               then JSON_stringify_val arg else arg) data)) in
  match first_arg data with
  | VStr formatStr =>
      if JsString.includes formatStr "%o" then
        let objToFormat := first_arg (tail data) in
        "Assertion failed: " +:+
        JsString.replace formatStr "%o" (ToString (JSON_stringify_val objToFormat))
      else joined
  | _ => joined
  end.

(** [assert]. *)
Definition console_assert (hookMode : bool) (args : list JsVal) : M JsVal :=
  let condition := first_arg args in
  let data := tail args in
  if negb (truthy condition)
  then logOrSend "log" hookMode [VStr (assert_message data)]
  else ret VUndefined.

(** The label of [time] and [timeEnd], after the default parameter and
    [String(label)]. *)
Definition label_of (args : list JsVal) : string :=
  ToString (match first_arg args with VUndefined => VStr "default" | v => v end).

(** [time]. *)
Definition console_time (args : list JsVal) : M JsVal :=
  let labelStr := label_of args in
  let! registry := gets timers in
  match registry !! labelStr with
  | Some _ =>
      this_console_call "error" [VStr ("Timer '" +:+ labelStr +:+ "' already exists")]
  | None =>
      let! now := read_clock in
      modify (fun st => set_timers (<[labelStr := now]> (timers st)) st) >>
      ret VUndefined
  end.

(** [timeEnd]. *)
Definition console_timeEnd (args : list JsVal) : M JsVal :=
  let labelStr := label_of args in
  let! registry := gets timers in
  match registry !! labelStr with
  | Some startTime =>
      let! now := read_clock in
      let duration := (now - startTime)%Z in
      modify (fun st => set_timers (delete labelStr (timers st)) st) >>
      this_console_call "log"
        [VStr (labelStr +:+ ": " +:+ number_to_string duration +:+ "ms")]
  | None =>
      this_console_call "error" [VStr ("Timer '" +:+ labelStr +:+ "' does not exist")]
  end.

Definition reset_accumulator (sink : JsVal) : JsVal :=
  match sink with VStr _ => VStr "" | other => other end.

(** [clear]. A captured [clear] that is neither a function nor nullish
    makes [originalClear?.call(...)] throw. *)
Definition console_clear : M JsVal :=
  modify (fun st =>
            set_context (mkContext (reset_accumulator (stdout (context st)))
                                   (reset_accumulator (stderr (context st)))) st) >>
  let! snapshot := gets originalUnpatchedConsoleInstance in
  match get_member snapshot "clear" with
  | VUndefined | VNull => ret VUndefined
  | VFun originalClear => call originalClear RSnapshot []
  | _ => throw "TypeError: not a function"
  end.

(** [trace]. *)
Definition console_trace (hookMode : bool) (args : list JsVal) : M JsVal :=
  let! stack := read_stack in
  let traceMessage :=
    match stack with
    | Some text => if JsString.is_empty text then "No stack trace available" else text
    | None => "No stack trace available"
    end in
  logOrSend "trace" hookMode (args ++ [VStr traceMessage]).

(** The operations [logOrSend] serves with no code of their own. *)
Definition plain_methods : list string :=
  ["log"; "info"; "debug"; "error"; "warn"; "group"; "groupEnd"].

Definition is_plain_method (name : string) : bool :=
  existsb (String.eqb name) plain_methods.

(** The member [name] of the object [createDefaultConsole(hookMode)]
    returns, applied to [args]. *)
Definition default_method (name : string) (hookMode : bool) (args : list JsVal) : M JsVal :=
  if is_plain_method name then logOrSend name hookMode args
  else if String.eqb name "table" then console_table hookMode args
  else if String.eqb name "assert" then console_assert hookMode args
  else if String.eqb name "time" then console_time args
  else if String.eqb name "timeEnd" then console_timeEnd args
  else if String.eqb name "clear" then console_clear
  else if String.eqb name "trace" then console_trace hookMode args
  else throw "TypeError: not a function".

(** [instance.console[prop](...args)]. *)
Definition surface_call (prop : string) (args : list JsVal) : M JsVal :=
  fun st =>
    match console st with
    | DefaultConsole hookMode => default_method prop hookMode args st
    | ProxyConsole target hookMode =>
        invoke (proxy_get (heap st) target hookMode prop) args st
    end.

(** *** constructor and patch *)

Definition default_context : WritableContext := mkContext (VStr "") (VStr "").

(** [{ ...consoleInstance }]: a fresh object with the own enumerable
    members the instance has at that moment; nothing of what its
    prototype chain supplies. *)
Definition spread (h : gmap loc JsObject) (consoleInstance : option loc)
    : gmap string JsVal :=
  match consoleInstance with
  | Some l => match h !! l with Some o => own_members o | None => ∅ end
  | None => ∅
  end.

(** [new ConsoleMonkeyPatch(context, consoleInstance, hookMode)], in a
    world whose heap is [h]. *)
Definition construct (h : gmap loc JsObject)
    (ctx : option WritableContext) (consoleInstance : option loc)
    (hookMode : bool) : State :=
  {| context := match ctx with Some c => c | None => default_context end;
     timers := ∅;
     originalUnpatchedConsoleInstance := spread h consoleInstance;
     console := match consoleInstance with
                | Some l => ProxyConsole l hookMode
                | None => DefaultConsole hookMode
                end;
     heap := h;
     events := [];
     ticks := 0 |}.

(** [patch(context, consoleInstance, hookMode)]. *)
Definition patch (ctx : option WritableContext) (consoleInstance : option loc)
    (hookMode : bool) (st : State) : State :=
  let st1 := match ctx with Some c => set_context c st | None => st end in
  match consoleInstance with
  | Some l => set_console (ProxyConsole l hookMode) st1
  | None => st1
  end.

(** A caller's [obj[k] = v] on a heap object, between two calls of the
    engine. *)
Definition assign_member (l : loc) (k : string) (v : JsVal) (st : State) : State :=
  set_heap (match heap st !! l with
            | Some o =>
                <[l := mkObject (<[k := v]> (own_members o)) (inherited_members o)]>
                  (heap st)
            | None => heap st
            end) st.

(** [patch] as it is called: [hookMode] is [false] when left out. *)
Definition patch_call (ctx : option WritableContext) (consoleInstance : option loc)
    (hookMode : option bool) (st : State) : State :=
  patch ctx consoleInstance (match hookMode with Some b => b | None => false end) st.

(** *** isConsoleInstance *)

(** [k in obj] for the names the engine asks about, which no
    prototype supplies and no array has: an own member of a plain
    object. *)
Definition has_member (k : string) (obj : JsVal) : bool :=
  match obj with
  | VObj props => existsb (fun kv => String.eqb (fst kv) k) props
  | _ => false
  end.

Definition is_null (v : JsVal) : bool :=
  match v with VNull => true | _ => false end.

Definition isConsoleInstance (obj : JsVal) : bool :=
  (negb (is_null obj) && String.eqb (typeof obj) "object"
   && has_member "log" obj && has_member "error" obj)%bool.

End ConsoleMonkeyPatch.

(** ** The vocabulary of the properties *)

Section Vocabulary.
Import JsString.
Variable env : Env.

Definition is_object (v : JsVal) : bool := String.eqb (typeof v) "object".

(** The stringified form of one argument: JSON for an object-typed
    one, the default string form for any other. *)
Definition stringified (arg : JsVal) : string :=
  if is_object arg
  then match JSON_stringify arg with Some t => t | None => "undefined" end
  else ToString arg.

(** The line in the words of the specification: every stringified form
    followed by a single space, trailing white space trimmed, the
    marker put in front. It is compared with [formattedMessage], the
    line the code builds. *)
Definition line_as_specified (args : list JsVal) : string :=
  "LOG: " +:+ trimEnd (concat_all (List.map (fun a => stringified a +:+ " ") args)).

(** What the loop appends for one argument: a non-object argument
    gives its string form and a space, an object-typed one a text that
    starts with its JSON serialization. *)
Definition piece_of (arg : JsVal) (piece : string) : Prop :=
  if is_object arg
  then exists rest, piece = stringified arg +:+ rest
  else piece = ToString arg +:+ " ".

(** The sink [writeToTarget] resolves for a method, and the context
    with that sink replaced. *)
Definition channel_sink (method : string) (st : State) : JsVal :=
  if is_error_method method then stderr (context st) else stdout (context st).

Definition set_channel_sink (method : string) (v : JsVal) (st : State) : State :=
  set_context (if is_error_method method
               then mkContext (stdout (context st)) v
               else mkContext v (stderr (context st))) st.

(** The call of a function sink, and the call hook mode adds. *)
Definition sink_calls (method line : string) (st : State) : list Event :=
  match channel_sink method st with
  | VFun g => [Call g RNone [VStr line]]
  | _ => []
  end.

Definition hook_calls (method : string) (hookMode : bool) (args : list JsVal)
    (st : State) : list Event :=
  if hookMode then
    match get_member (originalUnpatchedConsoleInstance st) method with
    | VFun f => [Call f RSnapshot args]
    | _ => []
    end
  else [].

(** The own enumerable member [k] of a heap object. *)
Definition own_member (h : gmap loc JsObject) (l : loc) (k : string) : JsVal :=
  get_member (spread h (Some l)) k.

(** C6 in the words of the specification, for [time] in one state:
    with the label registered and a string on the error channel, the
    report is appended to that string. *)
Definition time_reports_on_error_channel (st : State) (args : list JsVal) : Prop :=
  forall start acc,
    timers st !! label_of args = Some start ->
    stderr (context st) = VStr acc ->
    stderr (context (snd (console_time env args st)))
    = VStr (acc +:+ "LOG: Timer '" +:+ label_of args +:+ "' already exists" +:+ newline).

(** The states an engine built with no logger can be in: after the
    constructor, and then after any [patch], any call through the
    surface the engine holds, any call of a member of the synthesized
    surface (which the caller may have kept), and any change the
    caller makes to the heap. *)
Inductive from_synthesis : State -> Prop :=
| synthesized (h : gmap loc JsObject) (ctx : option WritableContext) (hookMode : bool) :
    from_synthesis (construct h ctx None hookMode)
| then_patch (st : State) (ctx : option WritableContext) (logger : option loc)
    (hookMode : bool) :
    from_synthesis st -> from_synthesis (patch ctx logger hookMode st)
| then_call (st : State) (prop : string) (args : list JsVal) :
    from_synthesis st -> from_synthesis (snd (surface_call env prop args st))
| then_kept_call (st : State) (name : string) (hookMode : bool) (args : list JsVal) :
    from_synthesis st -> from_synthesis (snd (default_method env name hookMode args st))
| then_heap (st : State) (h : gmap loc JsObject) :
    from_synthesis st -> from_synthesis (set_heap h st).






(** C8 in the words of the specification, for the capture: every
    method the logger has when the engine is built is in the captured
    snapshot. *)
Definition captures_methods (h : gmap loc JsObject) (ctx : option WritableContext)
    (logger : loc) (hookMode : bool) : Prop :=
  forall m f,
    get_prop h logger m = VFun f ->
    get_member (originalUnpatchedConsoleInstance (construct h ctx (Some logger) hookMode)) m
    = VFun f.

(** [obj[k]] on a plain object, and whether a value can be called. *)
Definition member_of (k : string) (obj : JsVal) : JsVal :=
  match obj with
  | VObj props =>
      match find (fun kv => String.eqb (fst kv) k) props with
      | Some kv => snd kv
      | None => VUndefined
      end
  | _ => VUndefined
  end.

Definition is_callable (v : JsVal) : bool :=
  match v with VFun _ => true | _ => false end.

(** What C9 asks of a backing logger: [log] and [error], both
    callable. *)
Definition exposes_log_and_error (obj : JsVal) : bool :=
  (is_callable (member_of "log" obj) && is_callable (member_of "error" obj))%bool.

Fixpoint no_dollar (s : string) : bool :=
  match s with
  | EmptyString => true
  | String c s' => (negb (Ascii.eqb c "$") && no_dollar s')%bool
  end.

End Vocabulary.

(** ** A concrete world, for the runs *)

Module Runs.

Definition f_log : FunRef := mkFun 1 "function log() {}".
Definition f_error : FunRef := mkFun 2 "function error() {}".
Definition f_table : FunRef := mkFun 3 "function table() {}".
Definition f_stdout : FunRef := mkFun 4 "function stdout() {}".
Definition f_stderr : FunRef := mkFun 5 "function stderr() {}".

(** A world in which every outside function returns the text [done],
    the clock starts at 1000 and gains 5 at each reading, and the
    stack is two lines of text. *)
Definition env0 : Env :=
  mkEnv (fun _ _ _ => VStr "done")
        (fun n => (1000 + 5 * Z.of_nat n)%Z)
        (fun _ => Some ("Error" +:+ newline +:+ "    at run")).

Definition native (id : nat) (name : string) : JsVal :=
  VFun (mkFun id ("function " +:+ name +:+ "() { [native code] }")).

(** What [Object.prototype] supplies to a plain object. *)
Definition object_prototype : gmap string JsVal :=
  list_to_map
    [("constructor", native 100 "Object");
     ("hasOwnProperty", native 101 "hasOwnProperty");
     ("isPrototypeOf", native 102 "isPrototypeOf");
     ("propertyIsEnumerable", native 103 "propertyIsEnumerable");
     ("toLocaleString", native 104 "toLocaleString");
     ("toString", native 105 "toString");
     ("valueOf", native 106 "valueOf");
     ("__defineGetter__", native 107 "__defineGetter__");
     ("__defineSetter__", native 108 "__defineSetter__");
     ("__lookupGetter__", native 109 "__lookupGetter__");
     ("__lookupSetter__", native 110 "__lookupSetter__");
     ("__proto__", VObj [])].

(** The plain object [{ log, error }], at location 0. *)
Definition logger0 : JsObject :=
  mkObject (<["log" := VFun f_log]> (<["error" := VFun f_error]> ∅)) object_prototype.

(** An instance of a class whose methods [log] and [error] are on the
    prototype, at location 1. *)
Definition class_logger : JsObject :=
  mkObject ∅ (<["log" := VFun f_log]> (<["error" := VFun f_error]> object_prototype)).

Definition heap0 : gmap loc JsObject := <[0 := logger0]> (<[1 := class_logger]> ∅).

(** [new ConsoleMonkeyPatch()]. *)
Definition fresh : State := construct ∅ None None false.

(** [new ConsoleMonkeyPatch(undefined, logger, true)]. *)
Definition hooked : State := construct heap0 None (Some 0) true.

(** [time("job")] on a fresh engine: the label is registered at
    1000. *)
Definition timing : State := snd (console_time env0 [VStr "job"] fresh).

(** The same engine after the caller has made the logger and called
    [patch(undefined, logger)]; the synthesized surface is kept by
    the caller. *)
Definition timing_patched : State := patch None (Some 0) false (set_heap heap0 timing).

(** [new ConsoleMonkeyPatch(undefined, undefined, true)] when the
    logger exists, and the same engine after
    [patch(undefined, logger, true)]. *)
Definition synthesized_hooked : State := construct heap0 None None true.

Definition synthesized_patched : State := patch None (Some 0) true synthesized_hooked.

End Runs.

(** ** Further vocabulary: sequences of calls, the names of the surface *)

Section Sequences.
Variable env : Env.

(** One logging call after another, through the same method. *)
Fixpoint log_all (method : string) (hookMode : bool) (calls : list (list JsVal))
    (st : State) : State :=
  match calls with
  | [] => st
  | args :: rest =>
      log_all method hookMode rest (snd (logOrSend env method hookMode args st))
  end.

(** The text the calls leave on a string sink. *)
Definition lines_of (calls : list (list JsVal)) : string :=
  JsString.concat_all (List.map (fun args => formattedMessage args +:+ newline) calls).

(** The names [createDefaultConsole] gives a member to. *)
Definition supported_methods : list string :=
  plain_methods ++ ["table"; "assert"; "time"; "timeEnd"; "clear"; "trace"].

(** The part of the state no call on the surface writes: the surface
    itself, the captured methods and the heap. *)
Definition same_configuration (st st' : State) : Prop :=
  console st' = console st
  /\ originalUnpatchedConsoleInstance st' = originalUnpatchedConsoleInstance st
  /\ heap st' = heap st.

End Sequences.

(** * Properties *)

(** ** Facts about the string built-ins *)

Module JsStringFacts.
Import JsString.

Lemma app_cons (x : ascii) (a b : string) : String x a +:+ b = String x (a +:+ b).
Proof. reflexivity. Qed.

Lemma app_empty_l (a : string) : "" +:+ a = a.
Proof. reflexivity. Qed.

Lemma app_assoc (a b c : string) : (a +:+ b) +:+ c = a +:+ (b +:+ c).
Proof.
  induction a as [|x a IH]; [reflexivity|].
  rewrite !app_cons. now rewrite IH.
Qed.

Lemma app_empty_r (a : string) : a +:+ "" = a.
Proof.
  induction a as [|x a IH]; [reflexivity|]. rewrite app_cons. now rewrite IH.
Qed.

Lemma trimEnd_app_space (s : string) : trimEnd (s +:+ " ") = trimEnd s.
Proof.
  induction s as [|c s IH]; [reflexivity|].
  rewrite app_cons. simpl. now rewrite IH.
Qed.

(** A string of white space only is trimmed away, and stays so with
    one more space; otherwise the added space stays behind the rest. *)
Lemma trimStart_app_space (s : string) :
  (trimStart s = "" /\ trimStart (s +:+ " ") = "")
  \/ trimStart (s +:+ " ") = trimStart s +:+ " ".
Proof.
  induction s as [|c s IH].
  - left; split; reflexivity.
  - rewrite app_cons. simpl.
    destruct (is_space c); [exact IH | right; reflexivity].
Qed.

Lemma trim_app_space (s : string) : trim (s +:+ " ") = trim s.
Proof.
  unfold trim.
  destruct (trimStart_app_space s) as [[H1 H2] | H].
  - now rewrite H1, H2.
  - rewrite H. apply trimEnd_app_space.
Qed.

Lemma trimStart_keeps (c : ascii) (s : string) :
  is_space c = false -> trimStart (String c s) = String c s.
Proof. intros H; simpl; now rewrite H. Qed.

Lemma trimEnd_keeps (c : ascii) (s : string) :
  is_space c = false -> trimEnd (String c s) = String c (trimEnd s).
Proof. intros H; simpl; now rewrite H. Qed.

Lemma trimEnd_cons_nonempty (c : ascii) (s : string) :
  is_empty (trimEnd s) = false -> trimEnd (String c s) = String c (trimEnd s).
Proof. intros H. simpl. rewrite H. now rewrite andb_false_r. Qed.

Lemma last_char_none (s : string) : last_char s = None -> s = "".
Proof.
  destruct s as [|c s]; [reflexivity|]. simpl.
  destruct (last_char s); discriminate.
Qed.

(** What [trimEnd] leaves does not end in white space. *)
Lemma trimEnd_last (s : string) (c : ascii) :
  last_char (trimEnd s) = Some c -> is_space c = false.
Proof.
  revert c. induction s as [|x s IH]; intros c; simpl; [discriminate|].
  destruct (is_space x) eqn:Hx; simpl.
  - destruct (trimEnd s) as [|y t] eqn:Ht; simpl; [discriminate|].
    intros H. apply IH. simpl.
    destruct (last_char t); exact H.
  - destruct (last_char (trimEnd s)) eqn:E.
    + intros H; injection H as <-. now apply IH.
    + intros H; injection H as <-. exact Hx.
Qed.

Lemma last_char_app (a b : string) :
  last_char (a +:+ b) = match last_char b with Some d => Some d | None => last_char a end.
Proof.
  induction a as [|x a IH].
  - rewrite app_empty_l. simpl. destruct (last_char b); reflexivity.
  - rewrite app_cons. simpl. rewrite IH.
    destruct (last_char b); [reflexivity|].
    destruct (last_char a); reflexivity.
Qed.

(** Joining with a space, and following each part by a space. *)
Lemma concat_spaced_join (parts : list string) :
  parts <> [] ->
  concat_all (List.map (fun p => p +:+ " ") parts) = join " " parts +:+ " ".
Proof.
  induction parts as [|p rest IH]; [congruence|]. intros _.
  destruct rest as [|q rest].
  - simpl. now rewrite app_empty_r.
  - change (concat_all (List.map (fun p0 => p0 +:+ " ") (p :: q :: rest)))
      with ((p +:+ " ") +:+ concat_all (List.map (fun p0 => p0 +:+ " ") (q :: rest))).
    rewrite IH by discriminate.
    change (join " " (p :: q :: rest)) with (p +:+ (" " +:+ join " " (q :: rest))).
    rewrite (app_assoc p " "), (app_assoc p (" " +:+ join " " (q :: rest)) " ").
    rewrite (app_assoc " "). reflexivity.
Qed.

Lemma trim_concat_spaced (parts : list string) :
  trim (concat_all (List.map (fun p => p +:+ " ") parts)) = trim (join " " parts).
Proof.
  destruct parts as [|p rest]; [reflexivity|].
  rewrite concat_spaced_join by discriminate. apply trim_app_space.
Qed.

End JsStringFacts.

(** ** The formatted line *)

Section Formatting.
Import JsString JsStringFacts.

Lemma fold_message (args : list JsVal) (acc : string) :
  fold_left (fun message arg => message +:+ format_arg arg) args acc
  = acc +:+ concat_all (List.map format_arg args).
Proof.
  revert acc. induction args as [|a args IH]; intros acc; simpl.
  - now rewrite app_empty_r.
  - rewrite IH. apply app_assoc.
Qed.

Lemma build_message_concat (args : list JsVal) :
  build_message args = concat_all (List.map format_arg args).
Proof. unfold build_message. now rewrite fold_message. Qed.

Lemma format_arg_piece (arg : JsVal) : piece_of arg (format_arg arg).
Proof.
  unfold piece_of, format_arg, stringified, is_object.
  destruct (String.eqb (typeof arg) "object"); [|reflexivity].
  exists "". now rewrite app_empty_r.
Qed.

Lemma format_arg_plain (args : list JsVal) :
  Forall (fun a => is_object a = false) args ->
  List.map format_arg args = List.map (fun p => p +:+ " ") (List.map ToString args).
Proof.
  induction 1 as [|a args Ha _ IH]; [reflexivity|].
  simpl. rewrite IH. f_equal.
  unfold format_arg. unfold is_object in Ha. now rewrite Ha.
Qed.

(** C1, as amended. For every argument list the line is the marker
    [LOG: ] put before the concatenation, in order, of one piece per
    argument with white space trimmed from both ends, where a
    non-object argument gives its default string form followed by a
    single space and an object-typed argument gives a text that starts
    with its JSON serialization; and when no argument is object-typed
    the line is the marker followed by the string forms joined by
    single spaces, trimmed at both ends. *)
Theorem formatted_line (args : list JsVal) :
  (exists pieces,
      Forall2 piece_of args pieces
      /\ formattedMessage args = "LOG: " +:+ trim (concat_all pieces))
  /\ (Forall (fun a => is_object a = false) args ->
      formattedMessage args = "LOG: " +:+ trim (join " " (List.map ToString args))).
Proof.
  split.
  - exists (List.map format_arg args). split.
    + induction args as [|a args IH]; simpl; constructor; auto using format_arg_piece.
    + unfold formattedMessage. now rewrite build_message_concat.
  - intros Hplain. unfold formattedMessage.
    rewrite build_message_concat, (format_arg_plain args Hplain).
    now rewrite trim_concat_spaced.
Qed.

(** C1 as it is worded does not hold: white space at the start of the
    first argument is trimmed as well, and an object-typed argument is
    not followed by a space. *)
Lemma formatted_line_not_as_specified :
  formattedMessage [VStr " hi"] <> line_as_specified [VStr " hi"]
  /\ formattedMessage [VObj [("a", VNum 1)]; VStr "x"]
     <> line_as_specified [VObj [("a", VNum 1)]; VStr "x"].
Proof. split; vm_compute; discriminate. Qed.

(** The line starts with the marker and does not end in a line break. *)
Lemma formatted_starts_with_marker (args : list JsVal) :
  startsWith "LOG: " (formattedMessage args) = true.
Proof. reflexivity. Qed.

Lemma formatted_no_trailing_newline (args : list JsVal) :
  last_char (formattedMessage args) <> Some (ascii_of_nat 10).
Proof.
  unfold formattedMessage. rewrite last_char_app.
  destruct (last_char (trim (build_message args))) as [c|] eqn:E.
  - apply trimEnd_last in E. intros [= ->]. discriminate.
  - discriminate.
Qed.

End Formatting.

(** ** Writing to a sink *)

Section Sinks.
Variable env : Env.

Lemma writeToTarget_function (method message : string) (st : State) (f : FunRef) :
  channel_sink method st = VFun f ->
  writeToTarget env method message st
  = (Returned tt, add_event (Call f RNone [VStr message]) st).
Proof. unfold writeToTarget, channel_sink. intros ->. reflexivity. Qed.

Lemma writeToTarget_string (method message : string) (st : State) (acc : string) :
  channel_sink method st = VStr acc ->
  writeToTarget env method message st
  = (Returned tt, set_channel_sink method (VStr (acc +:+ message +:+ newline)) st).
Proof. unfold writeToTarget, channel_sink, set_channel_sink. intros ->. reflexivity. Qed.

Lemma writeToTarget_returns (method message : string) (st : State) :
  fst (writeToTarget env method message st) = Returned tt.
Proof.
  unfold writeToTarget.
  destruct (if is_error_method method then _ else _); reflexivity.
Qed.

(** [logOrSend] in terms of its two steps. *)
Lemma logOrSend_steps (method : string) (hookMode : bool) (args : list JsVal) (st : State) :
  let st' := snd (writeToTarget env method (formattedMessage args) st) in
  logOrSend env method hookMode args st
  = if (hookMode && truthy (get_member (originalUnpatchedConsoleInstance st') method))%bool
    then match get_member (originalUnpatchedConsoleInstance st') method with
         | VFun f => call env f RSnapshot args st'
         | _ => (Returned VUndefined, st')
         end
    else (Returned VUndefined, st').
Proof.
  unfold logOrSend, bind, gets.
  pose proof (writeToTarget_returns method (formattedMessage args) st) as Hret.
  destruct (writeToTarget env method (formattedMessage args) st) as [o st'].
  simpl in *. subst o.
  destruct (hookMode && truthy _)%bool; [|reflexivity].
  destruct (get_member _ method); reflexivity.
Qed.

(** The write touches the context or the event log, nothing else. *)
Lemma writeToTarget_frame (method message : string) (st : State) :
  let st' := snd (writeToTarget env method message st) in
  timers st' = timers st /\ console st' = console st
  /\ originalUnpatchedConsoleInstance st' = originalUnpatchedConsoleInstance st
  /\ heap st' = heap st /\ ticks st' = ticks st.
Proof.
  unfold writeToTarget.
  destruct (if is_error_method method then _ else _); simpl; auto.
Qed.

(** C10. A formatted write hands the line, which starts with [LOG: ]
    and ends in no line break, to a function sink in a single call;
    appends the line and one line break to a string sink; and does
    nothing at all when the sink is neither. With hook mode off the
    write is all a logging call does. *)
Theorem sink_write (method : string) (args : list JsVal) (st : State) :
  let line := formattedMessage args in
  JsString.startsWith "LOG: " line = true
  /\ JsString.last_char line <> Some (ascii_of_nat 10)
  /\ logOrSend env method false args st
     = (Returned VUndefined, snd (writeToTarget env method line st))
  /\ match channel_sink method st with
     | VFun f =>
         writeToTarget env method line st
         = (Returned tt, add_event (Call f RNone [VStr line]) st)
     | VStr acc =>
         writeToTarget env method line st
         = (Returned tt, set_channel_sink method (VStr (acc +:+ line +:+ newline)) st)
     | _ => writeToTarget env method line st = (Returned tt, st)
     end.
Proof.
  intros line. split; [apply formatted_starts_with_marker|].
  split; [apply formatted_no_trailing_newline|].
  split; [now rewrite logOrSend_steps|].
  destruct (channel_sink method st) eqn:E;
    first [ now apply writeToTarget_function
          | now apply writeToTarget_string
          | unfold writeToTarget; unfold channel_sink in E; now rewrite E ].
Qed.

End Sinks.

(** ** Construction *)

(** C2. Built with no context and no logger, the engine holds a context
    whose two channels are empty strings, and after [log("hi")] on its
    surface the standard channel holds [LOG: hi] and a line break. *)
Theorem default_context_log (env : Env) (h : gmap loc JsObject) (hookMode : bool) :
  let st0 := construct h None None hookMode in
  context st0 = mkContext (VStr "") (VStr "")
  /\ surface_call env "log" [VStr "hi"] st0
     = (Returned VUndefined,
        set_context (mkContext (VStr ("LOG: hi" +:+ newline)) (VStr "")) st0).
Proof.
  split; [reflexivity|].
  destruct hookMode; reflexivity.
Qed.

(** ** The calls a logging call makes *)

Section Calls.
Variable env : Env.

Lemma writeToTarget_events (method message : string) (st : State) :
  events (snd (writeToTarget env method message st))
  = events st ++ sink_calls method message st.
Proof.
  unfold writeToTarget, sink_calls, channel_sink.
  destruct (if is_error_method method then _ else _); simpl;
    now rewrite ?app_nil_r.
Qed.

Lemma logOrSend_events (method : string) (hookMode : bool) (args : list JsVal) (st : State) :
  events (snd (logOrSend env method hookMode args st))
  = events st ++ sink_calls method (formattedMessage args) st
              ++ hook_calls method hookMode args st.
Proof.
  rewrite logOrSend_steps. cbv zeta.
  pose proof (writeToTarget_frame env method (formattedMessage args) st) as (_ & _ & Hs & _).
  pose proof (writeToTarget_events method (formattedMessage args) st) as He.
  cbv zeta in Hs. rewrite Hs. unfold hook_calls.
  destruct hookMode; simpl.
  - destruct (get_member (originalUnpatchedConsoleInstance st) method); simpl;
      repeat match goal with
             | |- context [if ?c then _ else _] => destruct c
             end; simpl;
      rewrite ?He, ?app_nil_r, <- ?app_assoc; reflexivity.
  - now rewrite He, app_nil_r.
Qed.

Lemma logOrSend_frame (method : string) (hookMode : bool) (args : list JsVal) (st : State) :
  let st' := snd (logOrSend env method hookMode args st) in
  timers st' = timers st /\ console st' = console st
  /\ originalUnpatchedConsoleInstance st' = originalUnpatchedConsoleInstance st
  /\ heap st' = heap st /\ ticks st' = ticks st.
Proof.
  rewrite logOrSend_steps. cbv zeta.
  pose proof (writeToTarget_frame env method (formattedMessage args) st) as H.
  cbv zeta in H.
  destruct (hookMode && truthy _)%bool; [|exact H].
  destruct (get_member _ method); exact H.
Qed.

Lemma sink_calls_receiver (method line : string) (st : State) :
  Forall (fun e => receiver e = RNone) (sink_calls method line st).
Proof. unfold sink_calls. destruct (channel_sink method st); repeat constructor. Qed.

Lemma hook_calls_receiver (method : string) (hookMode : bool) (args : list JsVal) (st : State) :
  Forall (fun e => receiver e = RSnapshot) (hook_calls method hookMode args st).
Proof.
  unfold hook_calls. destruct hookMode; [|constructor].
  destruct (get_member _ method); repeat constructor.
Qed.

End Calls.

(** ** The proxy around a logger instance *)

Section Proxy.
Variable env : Env.
Import JsString JsStringFacts.

Lemma assertion_prefix (data : list JsVal) :
  formattedMessage (VStr "Assertion failed:" :: data)
  = "LOG: Assertion failed:"
    +:+ trimEnd (" " +:+ concat_all (List.map format_arg data)).
Proof.
  unfold formattedMessage. rewrite build_message_concat.
  change (List.map format_arg (VStr "Assertion failed:" :: data))
    with (("Assertion failed:" +:+ " ") :: List.map format_arg data).
  change (concat_all (("Assertion failed:" +:+ " ") :: List.map format_arg data))
    with (("Assertion failed:" +:+ " ") +:+ concat_all (List.map format_arg data)).
  rewrite JsStringFacts.app_assoc.
  generalize (" " +:+ concat_all (List.map format_arg data)); intros tail.
  unfold trim. rewrite !app_cons, app_empty_l.
  rewrite trimStart_keeps by reflexivity.
  rewrite 9 trimEnd_keeps by reflexivity.
  rewrite trimEnd_cons_nonempty by (rewrite trimEnd_keeps by reflexivity; reflexivity).
  rewrite 7 trimEnd_keeps by reflexivity.
  reflexivity.
Qed.

Lemma assert_is_not (prop : string) : prop <> "assert" -> String.eqb prop "assert" = false.
Proof. intros H. now apply String.eqb_neq. Qed.

(** C3. With hook mode off, what the surface gives for a function-valued
    member other than [assert] is the very function the wrapped object
    holds. [assert] is answered by the engine whatever the hook mode
    and whatever the target holds: a call whose condition holds does
    nothing, and a failed one is the standard-log call of
    [Assertion failed:] followed by the data, so that its line starts
    with [LOG: Assertion failed:] and the only calls made are to the
    sink and, in hook mode, to the captured [log], none to the
    target. *)
Theorem proxy_passthrough_and_assert (h : gmap loc JsObject) (target : loc) :
  (forall prop f,
      prop <> "assert" -> get_prop h target prop = VFun f ->
      proxy_get h target false prop = Passthrough (VFun f))
  /\ (forall hookMode, proxy_get h target hookMode "assert" = ProxyAssert hookMode)
  /\ (forall hookMode condition data st,
         truthy condition = true ->
         invoke env (ProxyAssert hookMode) (condition :: data) st = (Returned VUndefined, st))
  /\ (forall hookMode condition data st,
         truthy condition = false ->
         let line := formattedMessage (VStr "Assertion failed:" :: data) in
         let st' := snd (invoke env (ProxyAssert hookMode) (condition :: data) st) in
         invoke env (ProxyAssert hookMode) (condition :: data) st
         = logOrSend env "log" hookMode (VStr "Assertion failed:" :: data) st
         /\ startsWith "LOG: Assertion failed:" line = true
         /\ events st' = events st ++ sink_calls "log" line st
                         ++ hook_calls "log" hookMode (VStr "Assertion failed:" :: data) st
         /\ Forall (fun e => receiver e = RNone \/ receiver e = RSnapshot)
                   (sink_calls "log" line st
                    ++ hook_calls "log" hookMode (VStr "Assertion failed:" :: data) st)).
Proof.
  split; [|split; [|split]].
  - intros prop f Hp Hf. unfold proxy_get.
    rewrite (assert_is_not prop Hp), Hf. reflexivity.
  - reflexivity.
  - intros hookMode condition data st Hc. simpl. now rewrite Hc.
  - intros hookMode condition data st Hc line st'.
    assert (Hrun : invoke env (ProxyAssert hookMode) (condition :: data) st
                   = logOrSend env "log" hookMode (VStr "Assertion failed:" :: data) st)
      by (simpl; now rewrite Hc).
    split; [exact Hrun|]. split; [|split].
    + unfold line. now rewrite assertion_prefix.
    + unfold st'. rewrite Hrun. apply logOrSend_events.
    + apply Forall_app. split.
      * eapply Forall_impl; [apply sink_calls_receiver | simpl; auto].
      * eapply Forall_impl; [apply hook_calls_receiver | simpl; auto].
Qed.

(** C5. With hook mode on, calling a function-valued member other than
    [assert] through the surface calls the target's function with the
    caller's arguments, calls it once more with the value the first
    call returned as its only argument, and returns that value. *)
Theorem proxy_hook_forwarding (st : State) (target : loc) (prop : string)
    (f : FunRef) (args : list JsVal) :
  console st = ProxyConsole target true ->
  prop <> "assert" ->
  get_prop (heap st) target prop = VFun f ->
  let output := respond env f args (events st) in
  surface_call env prop args st
  = (Returned output,
     add_event (Call f (RTarget target) [output])
               (add_event (Call f (RTarget target) args) st)).
Proof.
  intros Hc Hp Hf output. unfold surface_call. rewrite Hc.
  unfold proxy_get. rewrite (assert_is_not prop Hp), Hf. reflexivity.
Qed.

End Proxy.

(** ** Timers *)

Section Timers.
Variable env : Env.
Import JsString JsStringFacts.

Lemma trimEnd_id (s : string) (c : ascii) :
  last_char s = Some c -> is_space c = false -> trimEnd s = s.
Proof.
  revert c. induction s as [|x s IH]; intros c; [discriminate|].
  simpl last_char. destruct (last_char s) as [d|] eqn:E.
  - intros [= <-] Hd. rewrite trimEnd_cons_nonempty; rewrite (IH d eq_refl Hd).
    + reflexivity.
    + destruct s; [discriminate | reflexivity].
  - intros [= <-] Hx. apply last_char_none in E. subst s.
    simpl. now rewrite Hx.
Qed.

(** A report of the form [Timer '<label>' <what>] is written as it
    is: it starts with [T], and the reports used end in a letter. *)
Lemma timer_report_line (label what : string) (c : ascii) :
  last_char what = Some c -> is_space c = false ->
  formattedMessage [VStr ("Timer '" +:+ label +:+ "'" +:+ what)]
  = "LOG: Timer '" +:+ label +:+ "'" +:+ what.
Proof.
  intros Hlast Hc. unfold formattedMessage.
  rewrite build_message_concat.
  change (concat_all (List.map format_arg [VStr ("Timer '" +:+ label +:+ "'" +:+ what)]))
    with ((("Timer '" +:+ label +:+ "'" +:+ what) +:+ " ") +:+ "").
  rewrite app_empty_r, trim_app_space. unfold trim.
  repeat (rewrite app_cons || rewrite app_empty_l).
  rewrite trimStart_keeps by reflexivity.
  rewrite (trimEnd_id _ c); [reflexivity | | exact Hc].
  cbn [last_char]. rewrite last_char_app. cbn [last_char].
  now rewrite Hlast.
Qed.

Lemma this_console_call_default (hookMode : bool) (prop : string)
    (args : list JsVal) (st : State) :
  console st = DefaultConsole hookMode ->
  this_console_call env prop args st = logOrSend env prop hookMode args st.
Proof. intros H. unfold this_console_call. now rewrite H. Qed.

End Timers.

(** ** The capability check *)

Section Capability.

Lemma callable_member_present (k : string) (obj : JsVal) :
  is_callable (member_of k obj) = true -> has_member k obj = true.
Proof.
  destruct obj as [| | | | | |items|props]; simpl; try discriminate.
  induction props as [|[k' v] props IH]; simpl; [discriminate|].
  destruct (String.eqb k' k); [reflexivity | exact IH].
Qed.

(** A value that does expose the two methods passes the check. *)
Lemma isConsoleInstance_of_methods (obj : JsVal) :
  exposes_log_and_error obj = true -> isConsoleInstance obj = true.
Proof.
  unfold exposes_log_and_error, isConsoleInstance.
  intros [Hl He]%andb_true_iff.
  rewrite (callable_member_present _ _ Hl), (callable_member_present _ _ He).
  destruct obj; simpl in *; try discriminate; reflexivity.
Qed.

(** What the check does decide: a plain object with members named
    [log] and [error], whatever they hold. *)
Lemma isConsoleInstance_iff (obj : JsVal) :
  isConsoleInstance obj = true
  <-> exists props, obj = VObj props
                    /\ has_member "log" obj = true /\ has_member "error" obj = true.
Proof.
  unfold isConsoleInstance. split.
  - destruct obj; simpl; try discriminate.
    intros [Hl He]%andb_true_iff. eauto.
  - intros (props & -> & Hl & He). now rewrite Hl, He.
Qed.

(** C9 fails on the code: an object whose [log] and [error] are
    numbers passes the check although neither can be called. *)
Theorem isConsoleInstance_accepts_non_callables :
  let obj := VObj [("log", VNum 1); ("error", VNum 2)] in
  isConsoleInstance obj = true /\ exposes_log_and_error obj = false.
Proof. split; reflexivity. Qed.

End Capability.

(** ** assert on the synthesized surface *)

Section Assert.
Variable env : Env.
Import JsString JsStringFacts.

(** A condition that holds: no output, whatever the data. *)
Lemma console_assert_holds (hookMode : bool) (condition : JsVal)
    (data : list JsVal) (st : State) :
  truthy condition = true ->
  console_assert env hookMode (condition :: data) st = (Returned VUndefined, st).
Proof. intros H. unfold console_assert. simpl. now rewrite H. Qed.

(** A condition that fails: one standard-log call of the message. *)
Lemma console_assert_fails (hookMode : bool) (condition : JsVal)
    (data : list JsVal) (st : State) :
  truthy condition = false ->
  console_assert env hookMode (condition :: data) st
  = logOrSend env "log" hookMode [VStr (assert_message data)] st.
Proof. intros H. unfold console_assert. simpl. now rewrite H. Qed.

(** No placeholder in first place: the data joined by spaces. *)
Lemma assert_message_joined (data : list JsVal) :
  (forall formatStr, first_arg data = VStr formatStr -> includes formatStr "%o" = false) ->
  assert_message data
  = "Assertion failed: " +:+
    join " " (List.map join_element
                (List.map (fun arg => if String.eqb (typeof arg) "object"
                                      then JSON_stringify_val arg else arg) data)).
Proof.
  intros H. unfold assert_message.
  destruct (first_arg data) eqn:E; try reflexivity.
  now rewrite (H s eq_refl).
Qed.

Lemma getSubstitution_plain (matched before after templ : string) :
  no_dollar templ = true -> getSubstitution matched before after templ = templ.
Proof.
  induction templ as [|c templ IH]; [reflexivity|].
  simpl. destruct (Ascii.eqb c "$"); simpl; [discriminate|].
  intros H. now rewrite IH.
Qed.

(** The placeholder alone as format, and a serialization without a
    dollar sign: the message is the prefix and the serialization. *)
Lemma assert_message_placeholder (obj : JsVal) (rest : list JsVal) (json : string) :
  JSON_stringify obj = Some json -> no_dollar json = true ->
  assert_message (VStr "%o" :: obj :: rest) = "Assertion failed: " +:+ json.
Proof.
  intros Hj Hd. unfold assert_message, JSON_stringify_val. simpl.
  rewrite Hj. unfold replace. simpl.
  rewrite (getSubstitution_plain "%o" "" "" json Hd).
  now rewrite app_empty_r.
Qed.

End Assert.

(** ** Concrete runs *)

Section RunFacts.
Import JsString Runs.

(** [JSON.stringify] on the object of the repository's test. *)
Example stringify_test :
  JSON_stringify (VObj [("number", VNum 3); ("errorMsg", VStr "Number must be even")])
  = Some ("{" +:+ json_quote "number" +:+ ":3," +:+ json_quote "errorMsg"
           +:+ ":" +:+ json_quote "Number must be even" +:+ "}").
Proof. reflexivity. Qed.

Lemma synthesized_captures_nothing (h : gmap loc JsObject)
    (ctx : option WritableContext) (hookMode : bool) :
  originalUnpatchedConsoleInstance (construct h ctx None hookMode) = ∅.
Proof. reflexivity. Qed.

(** The test of the repository: a failed assertion with the
    placeholder and function sinks calls [stdout] once, with a line
    that contains the serialized object. *)
Example repository_assert_test :
  let obj := VObj [("number", VNum 3); ("errorMsg", VStr "Number must be even")] in
  let st0 := construct ∅ (Some (mkContext (VFun f_stdout) (VFun f_stderr))) None false in
  events (snd (surface_call env0 "assert" [VBool false; VStr "%o"; obj] st0))
  = [Call f_stdout RNone
       [VStr ("LOG: Assertion failed: {" +:+ json_quote "number" +:+ ":3,"
              +:+ json_quote "errorMsg" +:+ ":" +:+ json_quote "Number must be even"
              +:+ "}")]].
Proof. reflexivity. Qed.

(** C4 fails on the code: the serialization of [{a: "$$"}] holds two
    dollar signs, [replace] reads them as one, and the line written
    holds neither the serialization nor the text the claim gives. *)
Theorem assert_placeholder_dollar :
  let obj := VObj [("a", VStr "$$")] in
  let json := "{" +:+ json_quote "a" +:+ ":" +:+ json_quote "$$" +:+ "}" in
  let written := "LOG: Assertion failed: {" +:+ json_quote "a" +:+ ":"
                 +:+ json_quote "$" +:+ "}" +:+ newline in
  JSON_stringify obj = Some json
  /\ context (snd (surface_call env0 "assert" [VBool false; VStr "%o"; obj] fresh))
     = mkContext (VStr written) (VStr "")
  /\ includes written ("Assertion failed: " +:+ json) = false.
Proof. repeat split; vm_compute; reflexivity. Qed.

Lemma formatted_line_witness :
  Forall (fun a => is_object a = false)
         [VStr " a"; VNum 12; VBool true; VUndefined]
  /\ formattedMessage [VStr " a"; VNum 12; VBool true; VUndefined]
     = "LOG: a 12 true undefined".
Proof.
  assert (H : Forall (fun a => is_object a = false)
                     [VStr " a"; VNum 12; VBool true; VUndefined])
    by (repeat constructor).
  split; [exact H|].
  rewrite (proj2 (formatted_line _) H). reflexivity.
Defined.

Lemma proxy_passthrough_and_assert_witness :
  proxy_get heap0 0 false "log" = Passthrough (VFun f_log)
  /\ invoke env0 (ProxyAssert true) [VBool false; VStr "x"] hooked
     = logOrSend env0 "log" true [VStr "Assertion failed:"; VStr "x"] hooked
  /\ invoke env0 (ProxyAssert true) [VBool true; VStr "x"] hooked
     = (Returned VUndefined, hooked).
Proof.
  destruct (proxy_passthrough_and_assert env0 heap0 0) as (Hpass & _ & Hholds & Hfails).
  split; [|split].
  - apply Hpass; [discriminate | reflexivity].
  - apply (Hfails true (VBool false) [VStr "x"] hooked). reflexivity.
  - apply Hholds. reflexivity.
Defined.

Lemma proxy_hook_forwarding_witness :
  surface_call env0 "log" [VStr "a"] hooked
  = (Returned (VStr "done"),
     add_event (Call f_log (RTarget 0) [VStr "done"])
               (add_event (Call f_log (RTarget 0) [VStr "a"]) hooked)).
Proof.
  apply (proxy_hook_forwarding env0 hooked 0 "log" f_log [VStr "a"]).
  - reflexivity.
  - discriminate.
  - reflexivity.
Defined.

End RunFacts.

(** * Further properties of the engine *)

(** ** What no call on the surface changes *)

Section Configuration.
Variable env : Env.

Lemma same_configuration_refl (st : State) : same_configuration st st.
Proof. repeat split. Qed.

Lemma same_configuration_trans (a b c : State) :
  same_configuration a b -> same_configuration b c -> same_configuration a c.
Proof.
  unfold same_configuration. intros (H1 & H2 & H3) (K1 & K2 & K3).
  rewrite K1, K2, K3. auto.
Qed.

Lemma logOrSend_configuration (method : string) (hookMode : bool)
    (args : list JsVal) (st : State) :
  same_configuration st (snd (logOrSend env method hookMode args st)).
Proof.
  destruct (logOrSend_frame env method hookMode args st) as (_ & H1 & H2 & H3 & _).
  repeat split; assumption.
Qed.

Lemma invoke_frame (m : Method) (args : list JsVal) (st : State) :
  same_configuration st (snd (invoke env m args st))
  /\ timers (snd (invoke env m args st)) = timers st.
Proof.
  destruct m as [v|hookMode|f target hookMode]; simpl.
  - destruct v; simpl; repeat split.
  - destruct (negb (truthy (first_arg args))); simpl.
    + split; [apply logOrSend_configuration|].
      now destruct (logOrSend_frame env "log" hookMode
                      (VStr "Assertion failed:" :: tail args) st) as (-> & _).
    + repeat split.
  - destruct hookMode; simpl; repeat split.
Qed.

Lemma this_console_call_frame (prop : string) (args : list JsVal) (st : State) :
  same_configuration st (snd (this_console_call env prop args st))
  /\ timers (snd (this_console_call env prop args st)) = timers st.
Proof.
  unfold this_console_call. destruct (console st) as [hookMode|target hookMode].
  - split; [apply logOrSend_configuration|].
    now destruct (logOrSend_frame env prop hookMode args st) as (-> & _).
  - destruct (proxy_get (heap st) target hookMode prop) as [v|h|f t h] eqn:E.
    + destruct v; try apply invoke_frame; repeat split.
    + apply invoke_frame.
    + apply invoke_frame.
Qed.

Lemma console_time_configuration (args : list JsVal) (st : State) :
  same_configuration st (snd (console_time env args st)).
Proof.
  unfold console_time, bind, gets.
  destruct (timers st !! label_of args).
  - apply this_console_call_frame.
  - repeat split.
Qed.

Lemma console_timeEnd_configuration (args : list JsVal) (st : State) :
  same_configuration st (snd (console_timeEnd env args st)).
Proof.
  unfold console_timeEnd, bind, gets.
  destruct (timers st !! label_of args).
  - unfold read_clock, modify. simpl.
    eapply same_configuration_trans; [|apply this_console_call_frame].
    repeat split.
  - apply this_console_call_frame.
Qed.

Lemma console_clear_frame (st : State) :
  same_configuration st (snd (console_clear env st))
  /\ timers (snd (console_clear env st)) = timers st.
Proof.
  unfold console_clear, bind, modify, gets. simpl.
  destruct (get_member (originalUnpatchedConsoleInstance st) "clear");
    simpl; repeat split.
Qed.

Lemma default_method_cases (P : M JsVal -> Prop) (name : string)
    (hookMode : bool) (args : list JsVal) :
  (is_plain_method name = true -> P (logOrSend env name hookMode args)) ->
  (name = "table" -> P (console_table env hookMode args)) ->
  (name = "assert" -> P (console_assert env hookMode args)) ->
  (name = "time" -> P (console_time env args)) ->
  (name = "timeEnd" -> P (console_timeEnd env args)) ->
  (name = "clear" -> P (console_clear env)) ->
  (name = "trace" -> P (console_trace env hookMode args)) ->
  (~ In name supported_methods -> P (throw "TypeError: not a function")) ->
  P (default_method env name hookMode args).
Proof.
  intros Hplain Htable Hassert Htime HtimeEnd Hclear Htrace Hnone.
  unfold default_method.
  destruct (is_plain_method name) eqn:Ep; [auto|].
  destruct (String.eqb_spec name "table"); [auto|].
  destruct (String.eqb_spec name "assert"); [auto|].
  destruct (String.eqb_spec name "time"); [auto|].
  destruct (String.eqb_spec name "timeEnd"); [auto|].
  destruct (String.eqb_spec name "clear"); [auto|].
  destruct (String.eqb_spec name "trace"); [auto|].
  apply Hnone. unfold supported_methods. rewrite in_app_iff.
  intros [Hin | Hin].
  - assert (is_plain_method name = true); [|congruence].
    unfold is_plain_method. apply existsb_exists. exists name.
    split; [exact Hin | apply String.eqb_refl].
  - simpl in Hin. intuition congruence.
Qed.

Lemma console_table_frame (hookMode : bool) (args : list JsVal) (st : State) :
  same_configuration st (snd (console_table env hookMode args st))
  /\ timers (snd (console_table env hookMode args st)) = timers st.
Proof.
  unfold console_table. split; [apply logOrSend_configuration|].
  now destruct (logOrSend_frame env "table" hookMode
                  (JSON_stringify_val (first_arg args) :: tail args) st) as (-> & _).
Qed.

Lemma console_assert_frame (hookMode : bool) (args : list JsVal) (st : State) :
  same_configuration st (snd (console_assert env hookMode args st))
  /\ timers (snd (console_assert env hookMode args st)) = timers st.
Proof.
  unfold console_assert. destruct (negb (truthy (first_arg args))).
  - split; [apply logOrSend_configuration|].
    now destruct (logOrSend_frame env "log" hookMode
                    [VStr (assert_message (tail args))] st) as (-> & _).
  - repeat split.
Qed.

Lemma console_trace_frame (hookMode : bool) (args : list JsVal) (st : State) :
  same_configuration st (snd (console_trace env hookMode args st))
  /\ timers (snd (console_trace env hookMode args st)) = timers st.
Proof.
  unfold console_trace, bind, read_stack. simpl.
  set (forwarded := args ++ _).
  destruct (logOrSend_frame env "trace" hookMode forwarded (tick st))
    as (Ht & Hc & Hs & Hh & _).
  repeat split; assumption.
Qed.

Lemma default_method_frame (name : string) (hookMode : bool) (args : list JsVal)
    (st : State) :
  same_configuration st (snd (default_method env name hookMode args st))
  /\ (name <> "time" -> name <> "timeEnd"
      -> timers (snd (default_method env name hookMode args st)) = timers st).
Proof.
  apply (default_method_cases
           (fun m => same_configuration st (snd (m st))
                     /\ (name <> "time" -> name <> "timeEnd"
                         -> timers (snd (m st)) = timers st))).
  - intros _. split; [apply logOrSend_configuration|]. intros _ _.
    now destruct (logOrSend_frame env name hookMode args st) as (-> & _).
  - intros _. destruct (console_table_frame hookMode args st). auto.
  - intros _. destruct (console_assert_frame hookMode args st). auto.
  - intros ->. split; [apply console_time_configuration | congruence].
  - intros ->. split; [apply console_timeEnd_configuration | congruence].
  - intros _. destruct (console_clear_frame st). auto.
  - intros _. destruct (console_trace_frame hookMode args st). auto.
  - intros _. simpl. repeat split.
Qed.

Lemma surface_call_frame (prop : string) (args : list JsVal) (st : State) :
  same_configuration st (snd (surface_call env prop args st))
  /\ (prop <> "time" -> prop <> "timeEnd"
      -> timers (snd (surface_call env prop args st)) = timers st).
Proof.
  unfold surface_call. destruct (console st) as [hookMode|target hookMode] eqn:Ec.
  - apply default_method_frame.
  - destruct (invoke_frame (proxy_get (heap st) target hookMode prop) args st).
    auto.
Qed.

(** X1. No call on the surface, whatever the member and the arguments and
    whether it returns or throws, changes the surface, the captured
    methods or the heap; and only [time] and [timeEnd] change the
    timers. *)
Theorem surface_call_keeps_configuration (prop : string) (args : list JsVal) (st : State) :
  let st' := snd (surface_call env prop args st) in
  same_configuration st st'
  /\ (prop <> "time" -> prop <> "timeEnd" -> timers st' = timers st).
Proof. exact (surface_call_frame prop args st). Qed.

End Configuration.

(** ** Channels and accumulation *)

Section Channels.
Variable env : Env.
Import JsString JsStringFacts.

Lemma writeToTarget_context (method message : string) (st : State) :
  let st' := snd (writeToTarget env method message st) in
  (is_error_method method = true -> stdout (context st') = stdout (context st))
  /\ (is_error_method method = false -> stderr (context st') = stderr (context st))
  /\ ((forall acc, channel_sink method st <> VStr acc) -> context st' = context st)
  /\ (forall acc, channel_sink method st = VStr acc ->
        channel_sink method st' = VStr (acc +:+ message +:+ newline)).
Proof.
  unfold writeToTarget, channel_sink.
  destruct (is_error_method method) eqn:Em;
    [destruct (stderr (context st)) eqn:Es | destruct (stdout (context st)) eqn:Es];
    simpl; rewrite ?Em; simpl;
    repeat split; try congruence; try (intros H; now destruct (H _ eq_refl));
    try (intros acc [= <-]; reflexivity).
Qed.

Lemma logOrSend_context (method : string) (hookMode : bool) (args : list JsVal) (st : State) :
  context (snd (logOrSend env method hookMode args st))
  = context (snd (writeToTarget env method (formattedMessage args) st)).
Proof.
  rewrite logOrSend_steps. cbv zeta.
  destruct (hookMode && truthy _)%bool; [|reflexivity].
  destruct (get_member _ method); reflexivity.
Qed.

(** X2. A logging call writes to one channel only: [error] and [warn] leave
    [stdout] as it is, every other method leaves [stderr] as it is; a
    sink that is not a string is never replaced, so the context stays
    as it is; and a string sink grows by the line and a line break,
    with hook mode on as with hook mode off. *)
Theorem log_touches_one_channel (method : string) (hookMode : bool)
    (args : list JsVal) (st : State) :
  let st' := snd (logOrSend env method hookMode args st) in
  (is_error_method method = true -> stdout (context st') = stdout (context st))
  /\ (is_error_method method = false -> stderr (context st') = stderr (context st))
  /\ ((forall acc, channel_sink method st <> VStr acc) -> context st' = context st)
  /\ (forall acc, channel_sink method st = VStr acc ->
        channel_sink method st' = VStr (acc +:+ formattedMessage args +:+ newline)).
Proof.
  cbv zeta. unfold channel_sink at 3. rewrite logOrSend_context.
  apply (writeToTarget_context method (formattedMessage args) st).
Qed.

(** X3. A run of logging calls through one method leaves on a string sink
    what it held before followed by the lines of the calls, each with
    its line break, in the order of the calls. *)
Theorem log_all_accumulates (method : string) (hookMode : bool)
    (calls : list (list JsVal)) (st : State) (acc : string) :
  channel_sink method st = VStr acc ->
  channel_sink method (log_all env method hookMode calls st)
  = VStr (acc +:+ lines_of calls).
Proof.
  revert st acc. induction calls as [|args calls IH]; intros st acc Hacc.
  - simpl. unfold lines_of. simpl. now rewrite app_empty_r.
  - simpl. destruct (log_touches_one_channel method hookMode args st) as (_ & _ & _ & Hgrow).
    rewrite (IH _ _ (Hgrow acc Hacc)). f_equal.
    unfold lines_of. simpl. now rewrite !app_assoc.
Qed.

(** X4. In hook mode a captured member that is not a function (absent, or
    any other value) is passed over in silence: the call does what it
    does with hook mode off. *)
Theorem hook_skips_missing_method (method : string) (hookMode : bool)
    (args : list JsVal) (st : State) :
  (forall f, get_member (originalUnpatchedConsoleInstance st) method <> VFun f) ->
  logOrSend env method hookMode args st = logOrSend env method false args st.
Proof.
  intros Hmissing. rewrite !logOrSend_steps. cbv zeta.
  destruct (writeToTarget_frame env method (formattedMessage args) st) as (_ & _ & Hs & _).
  cbv zeta in Hs. rewrite Hs. simpl.
  destruct (hookMode && truthy _)%bool; [|reflexivity].
  destruct (get_member (originalUnpatchedConsoleInstance st) method) eqn:E;
    try reflexivity.
  now destruct (Hmissing f).
Qed.

(** X5. With hook mode off the plain methods differ by their channel
    only: [info], [debug], [group] and [groupEnd] do what [log] does,
    and [warn] does what [error] does. Grouping keeps no state. *)
Theorem plain_methods_by_channel (name : string) (args : list JsVal) (st : State) :
  In name plain_methods ->
  default_method env name false args st
  = default_method env (if is_error_method name then "error" else "log") false args st.
Proof.
  unfold plain_methods. simpl.
  intros [<-|[<-|[<-|[<-|[<-|[<-|[<-|[]]]]]]]]; reflexivity.
Qed.

End Channels.

(** ** Timers on the synthesized surface: start, stop and a missing label *)

Section TimerRuns.
Variable env : Env.

(** X6. [time] on a label that is not registered records the clock reading
    and writes nothing; every other label keeps its entry; [timeEnd]
    right after it logs the difference of the two clock readings and
    leaves the registry as it was before the [time]. *)
Theorem time_then_timeEnd (st : State) (hookMode : bool) (args : list JsVal) :
  console st = DefaultConsole hookMode ->
  timers st !! label_of args = None ->
  let L := label_of args in
  let t0 := Date_now env (ticks st) in
  let t1 := Date_now env (S (ticks st)) in
  let started := snd (console_time env args st) in
  console_time env args st
  = (Returned VUndefined, set_timers (<[L := t0]> (timers st)) (tick st))
  /\ (forall L', L' <> L -> timers started !! L' = timers st !! L')
  /\ console_timeEnd env args started
     = logOrSend env "log" hookMode
         [VStr (L +:+ ": " +:+ number_to_string (t1 - t0) +:+ "ms")]
         (set_timers (timers st) (tick (tick st)))
  /\ timers (snd (console_timeEnd env args started)) = timers st.
Proof.
  intros Hc Hfree L t0 t1 started.
  assert (Hstart : console_time env args st
                   = (Returned VUndefined, set_timers (<[L := t0]> (timers st)) (tick st))).
  { unfold console_time, bind, gets. rewrite Hfree. reflexivity. }
  assert (Hend : console_timeEnd env args started
                 = logOrSend env "log" hookMode
                     [VStr (L +:+ ": " +:+ number_to_string (t1 - t0) +:+ "ms")]
                     (set_timers (timers st) (tick (tick st)))).
  { unfold started. rewrite Hstart. unfold console_timeEnd, bind, gets. simpl.
    fold L. rewrite lookup_insert_eq. unfold read_clock, modify. simpl.
    rewrite (delete_insert_id (timers st) L t0 Hfree).
    now rewrite (this_console_call_default env hookMode). }
  split; [exact Hstart|]. split; [|split; [exact Hend|]].
  - intros L' Hne. unfold started. rewrite Hstart. simpl.
    now apply lookup_insert_ne.
  - rewrite Hend.
    now destruct (logOrSend_frame env "log" hookMode
                    [VStr (L +:+ ": " +:+ number_to_string (t1 - t0) +:+ "ms")]
                    (set_timers (timers st) (tick (tick st)))) as (-> & _).
Qed.

(** X7. [timeEnd] on a label that is not registered is the error-path
    report and nothing more: the registry is as it was and the clock
    is not read. *)
Theorem timeEnd_unregistered (st : State) (hookMode : bool) (args : list JsVal) :
  console st = DefaultConsole hookMode ->
  timers st !! label_of args = None ->
  let st' := snd (console_timeEnd env args st) in
  console_timeEnd env args st
  = logOrSend env "error" hookMode
      [VStr ("Timer '" +:+ label_of args +:+ "' does not exist")] st
  /\ timers st' = timers st
  /\ ticks st' = ticks st.
Proof.
  intros Hc Hfree st'.
  assert (Hrun : console_timeEnd env args st
                 = logOrSend env "error" hookMode
                     [VStr ("Timer '" +:+ label_of args +:+ "' does not exist")] st).
  { unfold console_timeEnd, bind, gets. rewrite Hfree.
    now rewrite (this_console_call_default env hookMode). }
  split; [exact Hrun|]. unfold st'. rewrite Hrun.
  destruct (logOrSend_frame env "error" hookMode
              [VStr ("Timer '" +:+ label_of args +:+ "' does not exist")] st)
    as (Ht & _ & _ & _ & Hk).
  split; assumption.
Qed.

End TimerRuns.

(** ** Calls through the proxy, and members that cannot be called *)

Section ProxyCalls.
Variable env : Env.

(** X8. With hook mode off, a call of a function-valued member other than
    [assert] through the proxy is one call of the target's function
    with the caller's arguments; its result is returned and the
    context is not written. *)
Theorem proxy_transparent_call (st : State) (target : loc) (prop : string)
    (f : FunRef) (args : list JsVal) :
  console st = ProxyConsole target false ->
  prop <> "assert" ->
  get_prop (heap st) target prop = VFun f ->
  surface_call env prop args st
  = (Returned (respond env f args (events st)), add_event (Call f RSurface args) st).
Proof.
  intros Hc Hp Hf. unfold surface_call. rewrite Hc. unfold proxy_get.
  rewrite (assert_is_not prop Hp), Hf. reflexivity.
Qed.

(** X9. Calling through the proxy a member under which the target gives no
    function (nothing at all, or a value that is not a function)
    throws and changes nothing, in either hook mode; [assert], which
    the engine answers itself, is the one exception. *)
Theorem missing_member_throws (st : State) (target : loc) (hookMode : bool)
    (prop : string) (args : list JsVal) :
  console st = ProxyConsole target hookMode ->
  prop <> "assert" ->
  (forall f, get_prop (heap st) target prop <> VFun f) ->
  surface_call env prop args st = (Thrown "TypeError: not a function", st).
Proof.
  intros Hc Hp Hnone. unfold surface_call. rewrite Hc.
  unfold proxy_get. rewrite (assert_is_not prop Hp).
  destruct (get_prop (heap st) target prop) eqn:E; try reflexivity.
  now destruct (Hnone f).
Qed.

End ProxyCalls.

(** ** clear *)

Section Clear.
Variable env : Env.

(** X10. [clear] empties each channel that holds a string and leaves any
    other sink as it is; it keeps the timers; and it calls a captured
    [clear] once, with no arguments, whatever the hook mode. *)
Theorem clear_resets_accumulators (st : State) :
  let st' := snd (console_clear env st) in
  ((forall acc, stdout (context st) = VStr acc -> stdout (context st') = VStr "")
   /\ ((forall acc, stdout (context st) <> VStr acc) ->
       stdout (context st') = stdout (context st)))
  /\ ((forall acc, stderr (context st) = VStr acc -> stderr (context st') = VStr "")
      /\ ((forall acc, stderr (context st) <> VStr acc) ->
          stderr (context st') = stderr (context st)))
  /\ timers st' = timers st
  /\ (forall f, get_member (originalUnpatchedConsoleInstance st) "clear" = VFun f ->
        events st' = events st ++ [Call f RSnapshot []])
  /\ (get_member (originalUnpatchedConsoleInstance st) "clear" = VUndefined ->
        events st' = events st).
Proof.
  assert (Hctx : context (snd (console_clear env st))
                 = mkContext (reset_accumulator (stdout (context st)))
                             (reset_accumulator (stderr (context st)))).
  { unfold console_clear, bind, modify, gets. simpl.
    destruct (get_member (originalUnpatchedConsoleInstance st) "clear"); reflexivity. }
  assert (Hreset : forall v,
             (forall acc, v = VStr acc -> reset_accumulator v = VStr "")
             /\ ((forall acc, v <> VStr acc) -> reset_accumulator v = v)).
  { intros v. split.
    - intros acc ->. reflexivity.
    - intros H. destruct v; try reflexivity. now destruct (H s). }
  cbv zeta. rewrite Hctx. simpl.
  split; [apply Hreset|]. split; [apply Hreset|].
  split; [apply console_clear_frame|].
  split.
  - intros f Hf. unfold console_clear, bind, modify, gets. simpl. now rewrite Hf.
  - intros Hf. unfold console_clear, bind, modify, gets. simpl. now rewrite Hf.
Qed.

End Clear.

(** ** More facts about the string built-ins *)

Module JsStringSearch.
Import JsString JsStringFacts.

Lemma startsWith_sound (p s : string) :
  startsWith p s = true -> s = p +:+ drop (String.length p) s.
Proof.
  revert s. induction p as [|a p IH]; intros s; [reflexivity|].
  destruct s as [|b s]; simpl; [discriminate|].
  intros [Hab Hrest]%andb_true_iff. apply Ascii.eqb_eq in Hab. subst b.
  rewrite app_cons. f_equal. now apply IH.
Qed.

Lemma startsWith_app (p s t : string) :
  startsWith p s = true -> startsWith p (s +:+ t) = true.
Proof.
  revert s. induction p as [|a p IH]; intros s; [reflexivity|].
  destruct s as [|b s]; [simpl; discriminate|].
  rewrite app_cons. simpl.
  intros [Hab Hrest]%andb_true_iff. rewrite Hab. now apply IH.
Qed.

Lemma startsWith_self (p t : string) : startsWith p (p +:+ t) = true.
Proof.
  induction p as [|a p IH]; [reflexivity|].
  rewrite app_cons. simpl. now rewrite Ascii.eqb_refl.
Qed.

(** What [split_at] returns are the two sides of an occurrence. *)
Lemma split_at_sound (p s before after : string) :
  split_at p s = Some (before, after) -> s = before +:+ p +:+ after.
Proof.
  revert before after. induction s as [|c s IH]; intros before after; simpl.
  - destruct (startsWith p "") eqn:E; [|discriminate].
    intros [= <- <-]. now apply startsWith_sound in E.
  - destruct (startsWith p (String c s)) eqn:E.
    + intros [= <- <-]. now apply startsWith_sound in E.
    + destruct (split_at p s) as [[b a]|]; [|discriminate].
      intros [= <- <-]. rewrite app_cons. f_equal. now apply IH.
Qed.

(** The occurrence is the first one: the text before it holds none. *)
Lemma split_at_first (p s before after : string) :
  p <> "" -> split_at p s = Some (before, after) -> split_at p before = None.
Proof.
  intros Hp. revert before after.
  assert (Hnil : split_at p "" = None).
  { simpl. destruct p; [congruence | reflexivity]. }
  induction s as [|c s IH]; intros before after; simpl.
  - destruct (startsWith p ""); [|discriminate]. now intros [= <- <-].
  - destruct (startsWith p (String c s)) eqn:E; [now intros [= <- <-]|].
    destruct (split_at p s) as [[b a]|] eqn:Es; [|discriminate].
    intros [= <- <-]. simpl. rewrite (IH b a eq_refl).
    destruct (startsWith p (String c b)) eqn:Eb; [|reflexivity].
    apply (startsWith_app _ _ (p +:+ a)) in Eb.
    rewrite app_cons, <- (split_at_sound p s b a Es) in Eb. congruence.
Qed.

(** A text that holds an occurrence is found to include it. *)
Lemma includes_app (a p b : string) : includes (a +:+ p +:+ b) p = true.
Proof.
  unfold includes. induction a as [|c a IH].
  - rewrite app_empty_l. destruct (p +:+ b) eqn:E; simpl.
    + rewrite <- E, startsWith_self. reflexivity.
    + rewrite <- E, startsWith_self. reflexivity.
  - rewrite app_cons. simpl.
    destruct (startsWith p (String c (a +:+ p +:+ b))); [reflexivity|].
    destruct (split_at p (a +:+ p +:+ b)) as [[x y]|]; [reflexivity | discriminate].
Qed.

Lemma trimStart_app_keeps (x z z' : string) (a : ascii) :
  z = String a z' -> is_space a = false ->
  exists x', trimStart (x +:+ z) = x' +:+ z.
Proof.
  intros -> Ha. induction x as [|c x IH].
  - exists "". rewrite !app_empty_l. now apply trimStart_keeps.
  - rewrite app_cons. simpl. destruct (is_space c).
    + exact IH.
    + exists (String c x). now rewrite app_cons.
Qed.

Lemma trimEnd_app_keeps (w y : string) (b : ascii) :
  last_char w = Some b -> is_space b = false ->
  exists y', trimEnd (w +:+ y) = w +:+ y'.
Proof.
  revert b. induction w as [|c w IH]; intros b; [discriminate|].
  simpl last_char. destruct (last_char w) as [d|] eqn:E.
  - intros [= <-] Hd. destruct (IH d eq_refl Hd) as (y' & Hy').
    exists y'. rewrite !app_cons. rewrite trimEnd_cons_nonempty; rewrite Hy'.
    + reflexivity.
    + destruct w; [discriminate|]. reflexivity.
  - intros [= <-] Hc. apply last_char_none in E. subst w.
    exists (trimEnd y). rewrite !app_cons, !app_empty_l.
    now apply trimEnd_keeps.
Qed.

(** Trimming leaves alone a part that starts and ends in something
    other than white space. *)
Lemma trim_keeps_inner (x j j' y : string) (a b : ascii) :
  j = String a j' -> is_space a = false ->
  last_char j = Some b -> is_space b = false ->
  exists x' y', trim (x +:+ j +:+ y) = x' +:+ j +:+ y'.
Proof.
  intros Hj Ha Hlast Hb. unfold trim.
  destruct (trimStart_app_keeps x (j +:+ y) (j' +:+ y) a) as (x' & Hx'); [|exact Ha|].
  { rewrite Hj. now rewrite app_cons. }
  rewrite Hx', <- app_assoc.
  destruct (trimEnd_app_keeps (x' +:+ j) y b) as (y' & Hy'); [|exact Hb|].
  { rewrite last_char_app. now rewrite Hlast. }
  exists x', y'. rewrite Hy'. apply app_assoc.
Qed.

Lemma concat_all_app (l1 l2 : list string) :
  concat_all (l1 ++ l2) = concat_all l1 +:+ concat_all l2.
Proof.
  induction l1 as [|p l1 IH]; [reflexivity|].
  simpl. rewrite IH. symmetry. apply app_assoc.
Qed.

End JsStringSearch.

(** ** Objects in the line, table, and the placeholder of assert *)

Section Serialized.
Variable env : Env.
Import JsString JsStringFacts JsStringSearch.

(** The JSON text of an object-typed value starts and ends with
    something other than white space. *)
Lemma json_object_shape (v : JsVal) :
  is_object v = true ->
  exists json a rest b,
    JSON_stringify v = Some json /\ json = String a rest /\ is_space a = false
    /\ last_char json = Some b /\ is_space b = false.
Proof.
  destruct v as [| | | | | |items|props]; try discriminate; intros _.
  - exists "null", "n"%char, "ull", "l"%char. repeat split.
  - eexists _, "["%char, _, "]"%char. split; [reflexivity|].
    split; [reflexivity|]. split; [reflexivity|]. split; [|reflexivity].
    rewrite !last_char_app. reflexivity.
  - eexists _, "{"%char, _, "}"%char. split; [reflexivity|].
    split; [reflexivity|]. split; [reflexivity|]. split; [|reflexivity].
    rewrite !last_char_app. reflexivity.
Qed.

Lemma format_arg_object (v : JsVal) (json : string) :
  is_object v = true -> JSON_stringify v = Some json -> format_arg v = json.
Proof. unfold format_arg, is_object. now intros -> ->. Qed.

(** X11. Every object-typed argument of a logging call is in the line in
    its JSON form, whole, wherever it stands among the arguments. *)
Theorem object_serialized_in_line (args : list JsVal) (v : JsVal) :
  In v args -> is_object v = true ->
  exists json,
    JSON_stringify v = Some json
    /\ includes (formattedMessage args) json = true.
Proof.
  intros Hin Hobj.
  destruct (json_object_shape v Hobj) as (json & a & rest & b & Hj & Hshape & Ha & Hlast & Hb).
  exists json. split; [exact Hj|].
  destruct (in_split v args Hin) as (l1 & l2 & ->).
  unfold formattedMessage. rewrite build_message_concat.
  rewrite List.map_app, concat_all_app. simpl.
  rewrite (format_arg_object v json Hobj Hj).
  destruct (trim_keeps_inner (concat_all (List.map format_arg l1)) json rest
              (concat_all (List.map format_arg l2)) a b Hshape Ha Hlast Hb)
    as (x' & y' & Htrim).
  rewrite Htrim, <- app_assoc. apply includes_app.
Qed.

Lemma single_text_line (text rest : string) (a b : ascii) :
  text = String a rest -> is_space a = false ->
  last_char text = Some b -> is_space b = false ->
  formattedMessage [VStr text] = "LOG: " +:+ text.
Proof.
  intros Hshape Ha Hlast Hb. unfold formattedMessage.
  rewrite build_message_concat.
  change (concat_all (List.map format_arg [VStr text])) with ((text +:+ " ") +:+ "").
  rewrite app_empty_r, trim_app_space. unfold trim.
  rewrite Hshape, (trimStart_keeps a rest Ha), <- Hshape.
  now rewrite (trimEnd_id text b Hlast Hb).
Qed.

(** X12. [table] with object-typed data and no further argument is the
    [table]-path logging call of the JSON text of the data, and the
    line it writes is the marker followed by that text: the line
    [log] writes for the same data. *)
Theorem table_line (hookMode : bool) (data : JsVal) (st : State) :
  is_object data = true ->
  exists json,
    JSON_stringify data = Some json
    /\ console_table env hookMode [data] st = logOrSend env "table" hookMode [VStr json] st
    /\ formattedMessage [VStr json] = "LOG: " +:+ json
    /\ formattedMessage [data] = "LOG: " +:+ json.
Proof.
  intros Hobj.
  destruct (json_object_shape data Hobj) as (json & a & rest & b & Hj & Hshape & Ha & Hlast & Hb).
  exists json. split; [exact Hj|]. split; [|split].
  - unfold console_table, JSON_stringify_val. simpl. now rewrite Hj.
  - exact (single_text_line json rest a b Hshape Ha Hlast Hb).
  - unfold formattedMessage. rewrite build_message_concat. simpl.
    rewrite (format_arg_object data json Hobj Hj), app_empty_r. unfold trim.
    rewrite Hshape, (trimStart_keeps a rest Ha), <- Hshape.
    now rewrite (trimEnd_id json b Hlast Hb).
Qed.

(** X13. When the first datum of a failed assertion is a text that holds
    the placeholder, the message is that text with its first
    placeholder, and no other, replaced by the JSON form of the second
    datum, provided that form holds no dollar sign; data after the
    second are not used. *)
Theorem assert_replaces_first_placeholder (formatStr : string) (obj : JsVal)
    (more : list JsVal) (json : string) :
  includes formatStr "%o" = true ->
  JSON_stringify obj = Some json ->
  no_dollar json = true ->
  exists before after,
    formatStr = before +:+ "%o" +:+ after
    /\ includes before "%o" = false
    /\ assert_message (VStr formatStr :: obj :: more)
       = "Assertion failed: " +:+ before +:+ json +:+ after.
Proof.
  intros Hinc Hj Hd. unfold includes in Hinc.
  destruct (split_at "%o" formatStr) as [[before after]|] eqn:Es; [|discriminate].
  exists before, after. split; [now apply split_at_sound|]. split.
  - unfold includes. rewrite (split_at_first "%o" formatStr before after); [reflexivity| |exact Es].
    discriminate.
  - unfold assert_message. simpl first_arg. unfold includes. rewrite Es.
    unfold replace. rewrite Es. unfold JSON_stringify_val. simpl first_arg.
    rewrite Hj. simpl ToString.
    now rewrite (getSubstitution_plain "%o" before after json Hd).
Qed.

Lemma join_element_plain (data : list JsVal) :
  Forall (fun a => is_object a = false /\ a <> VUndefined) data ->
  List.map join_element
    (List.map (fun arg => if String.eqb (typeof arg) "object"
                          then JSON_stringify_val arg else arg) data)
  = List.map ToString data.
Proof.
  induction 1 as [|a data [Ho Hu] _ IH]; [reflexivity|].
  simpl. rewrite IH. f_equal. unfold is_object in Ho. rewrite Ho.
  destruct a; try reflexivity; [congruence | discriminate].
Qed.

(** X14. For data without object-typed values, without [undefined] and
    without a leading placeholder text, the synthesized [assert] and
    the [assert] of the proxy write the same line. *)
Theorem assert_lines_agree (data : list JsVal) :
  Forall (fun a => is_object a = false /\ a <> VUndefined) data ->
  (forall formatStr, first_arg data = VStr formatStr -> includes formatStr "%o" = false) ->
  formattedMessage [VStr (assert_message data)]
  = formattedMessage (VStr "Assertion failed:" :: data).
Proof.
  intros Hplain Hfmt.
  rewrite (assert_message_joined data Hfmt), (join_element_plain data Hplain).
  unfold formattedMessage. rewrite !build_message_concat. f_equal.
  change (concat_all (List.map format_arg
            [VStr ("Assertion failed: " +:+ join " " (List.map ToString data))]))
    with ((("Assertion failed: " +:+ join " " (List.map ToString data)) +:+ " ") +:+ "").
  rewrite app_empty_r, trim_app_space.
  change (concat_all (List.map format_arg (VStr "Assertion failed:" :: data)))
    with (("Assertion failed:" +:+ " ") +:+ concat_all (List.map format_arg data)).
  rewrite (format_arg_plain data).
  - destruct data as [|d data]; [reflexivity|].
    rewrite concat_spaced_join by discriminate.
    change ("Assertion failed:" +:+ " ") with "Assertion failed: ".
    now rewrite <- app_assoc, trim_app_space.
  - eapply Forall_impl; [exact Hplain | simpl; tauto].
Qed.

End Serialized.

(** ** Hook mode on the synthesized surface *)

Section SynthesisHook.
Variable env : Env.


(** An engine built with no logger never has captured methods. *)
Lemma from_synthesis_snapshot (st : State) :
  from_synthesis env st -> originalUnpatchedConsoleInstance st = ∅.
Proof.
  induction 1 as [h ctx hookMode | st ctx logger hookMode _ IH | st prop args _ IH
                  | st name hookMode args _ IH | st h _ IH].
  - reflexivity.
  - destruct ctx, logger; exact IH.
  - destruct (surface_call_frame env prop args st) as ((_ & Hs & _) & _).
    now rewrite Hs.
  - destruct (default_method_frame env name hookMode args st) as ((_ & Hs & _) & _).
    now rewrite Hs.
  - exact IH.
Qed.




(** X16. An engine built with no logger never holds captured methods,
    whatever follows: [patch] (with a logger or without), calls
    through its surface, calls of the synthesized surface the caller
    kept, changes of the heap. So hook mode finds nothing to call in
    any logging call of such an engine. *)
Theorem from_synthesis_captures_nothing (st : State) :
  from_synthesis env st ->
  originalUnpatchedConsoleInstance st = ∅
  /\ forall method hookMode args, hook_calls method hookMode args st = [].
Proof.
  intros Hreach. pose proof (from_synthesis_snapshot st Hreach) as Hempty.
  split; [exact Hempty|]. intros method hookMode args.
  unfold hook_calls, get_member. rewrite Hempty, lookup_empty.
  now destruct hookMode.
Qed.

End SynthesisHook.

(** ** Reconfiguration *)

Section Reconfiguration.
Variable env : Env.

Lemma assign_member_prop (l : loc) (k : string) (v : JsVal) (st : State) :
  is_Some (heap st !! l) -> get_prop (heap (assign_member l k v st)) l k = v.
Proof.
  intros [o Ho]. unfold assign_member, get_prop. rewrite Ho. simpl.
  rewrite lookup_insert_eq. simpl. now rewrite lookup_insert_eq.
Qed.

(** The proxy reads its target when a member is asked for, so it does
    see an assignment made after it was built. *)
Lemma proxy_sees_assignment (l : loc) (k : string) (g : FunRef) (st : State) :
  is_Some (heap st !! l) -> k <> "assert" ->
  proxy_get (heap (assign_member l k (VFun g) st)) l false k = Passthrough (VFun g).
Proof.
  intros Hl Hk. unfold proxy_get.
  rewrite (assign_member_prop l k (VFun g) st Hl).
  apply String.eqb_neq in Hk. now rewrite Hk.
Qed.

(** An own member is found by member access. *)
Lemma own_member_found (h : gmap loc JsObject) (l : loc) (k : string) (f : FunRef) :
  own_member h l k = VFun f -> get_prop h l k = VFun f.
Proof.
  unfold own_member, spread, get_prop, get_member.
  destruct (h !! l) as [o|]; [|rewrite lookup_empty; discriminate].
  now destruct (own_members o !! k).
Qed.

(** C8, as amended. [patch] with a context alone puts that context in
    place of the old one and leaves the surface, the timers and the
    captured methods as they were; [patch] with a logger instance
    makes the surface the proxy of that instance, as the constructor
    would, with hook mode off when the flag is left out; a parameter
    left out leaves its part of the state alone; the timers and the
    captured methods survive every [patch], which captures nothing
    itself; and what the constructor captured are the own enumerable
    members the logger had then (each of them a member the logger
    answers to, none of them one its prototype chain supplies),
    whatever is assigned to the logger afterwards. *)
Theorem patch_frame (st : State) (ctx : WritableContext) (logger : loc)
    (hookMode : bool) (ctx_opt : option WritableContext) (logger_opt : option loc) :
  (patch (Some ctx) None hookMode st = set_context ctx st
   /\ context (patch (Some ctx) None hookMode st) = ctx
   /\ console (patch (Some ctx) None hookMode st) = console st)
  /\ (console (patch ctx_opt (Some logger) hookMode st) = ProxyConsole logger hookMode
      /\ console (patch_call ctx_opt (Some logger) None st) = ProxyConsole logger false
      /\ forall h,
           console (patch ctx_opt (Some logger) hookMode st)
           = console (construct h ctx_opt (Some logger) hookMode))
  /\ (patch None None hookMode st = st
      /\ patch_call None None None st = st
      /\ context (patch None logger_opt hookMode st) = context st
      /\ console (patch ctx_opt None hookMode st) = console st)
  /\ (timers (patch ctx_opt logger_opt hookMode st) = timers st
      /\ originalUnpatchedConsoleInstance (patch ctx_opt logger_opt hookMode st)
         = originalUnpatchedConsoleInstance st)
  /\ (forall h k v m,
         let built := construct h ctx_opt (Some logger) hookMode in
         let later := patch ctx_opt logger_opt hookMode (assign_member logger k v built) in
         get_member (originalUnpatchedConsoleInstance built) m = own_member h logger m
         /\ get_member (originalUnpatchedConsoleInstance later) m = own_member h logger m
         /\ (forall f, get_member (originalUnpatchedConsoleInstance later) m = VFun f ->
               get_prop h logger m = VFun f)).
Proof.
  split; [|split; [|split; [|split]]].
  - repeat split.
  - split; [|split; [|intros h]]; destruct ctx_opt; reflexivity.
  - split; [reflexivity|]. split; [reflexivity|]. split.
    + destruct logger_opt; reflexivity.
    + destruct ctx_opt; reflexivity.
  - destruct ctx_opt, logger_opt; split; reflexivity.
  - intros h k v m built later.
    assert (Hlater : get_member (originalUnpatchedConsoleInstance later) m
                     = own_member h logger m)
      by (unfold later; destruct ctx_opt, logger_opt; reflexivity).
    split; [reflexivity|]. split; [exact Hlater|].
    intros f Hf. rewrite Hlater in Hf. now apply own_member_found.
Qed.

(** X15. [patch] does not capture the methods of the logger it is given.
    After an engine built around a first logger is patched, in hook
    mode, with a second one, a failed [assert] on the new surface
    forwards to the [log] the constructor captured from the first
    logger, if [log] was an own enumerable member of it and a
    function, and to nothing otherwise; and when the engine was built
    with no logger nothing is forwarded. Either way the only other
    call is that of a function sink. *)
Theorem assert_after_patch (h : gmap loc JsObject)
    (ctx : option WritableContext) (first second : loc) (hookMode : bool)
    (condition : JsVal) (data : list JsVal) :
  truthy condition = false ->
  let line := formattedMessage (VStr "Assertion failed:" :: data) in
  let wrapped := patch None (Some second) true (construct h ctx (Some first) hookMode) in
  let bare := patch None (Some second) true (construct h ctx None hookMode) in
  events (snd (surface_call env "assert" (condition :: data) wrapped))
  = sink_calls "log" line wrapped
    ++ match own_member h first "log" with
       | VFun f => [Call f RSnapshot (VStr "Assertion failed:" :: data)]
       | _ => []
       end
  /\ events (snd (surface_call env "assert" (condition :: data) bare))
     = sink_calls "log" line bare.
Proof.
  intros Hc line wrapped bare.
  assert (Hrun : forall st, console st = ProxyConsole second true ->
            surface_call env "assert" (condition :: data) st
            = logOrSend env "log" true (VStr "Assertion failed:" :: data) st).
  { intros st Hs. unfold surface_call. rewrite Hs. simpl. now rewrite Hc. }
  split.
  - rewrite (Hrun wrapped eq_refl), logOrSend_events.
    change (events wrapped) with (@nil Event). rewrite app_nil_l. reflexivity.
  - rewrite (Hrun bare eq_refl), logOrSend_events.
    change (events bare) with (@nil Event). rewrite app_nil_l.
    unfold hook_calls.
    change (originalUnpatchedConsoleInstance bare) with (spread h None).
    unfold spread, get_member. rewrite lookup_empty. apply app_nil_r.
Qed.

End Reconfiguration.

(** ** The timer protocol *)

Section TimerProtocol.
Variable env : Env.

(** All that a logging call does, in one place. *)
Lemma logOrSend_effect (method : string) (hookMode : bool) (args : list JsVal) (st : State) :
  let st' := snd (logOrSend env method hookMode args st) in
  let line := formattedMessage args in
  timers st' = timers st
  /\ events st' = events st ++ sink_calls method line st
                            ++ hook_calls method hookMode args st
  /\ (is_error_method method = true -> stdout (context st') = stdout (context st))
  /\ (is_error_method method = false -> stderr (context st') = stderr (context st))
  /\ (forall acc, channel_sink method st = VStr acc ->
        channel_sink method st' = VStr (acc +:+ line +:+ newline)).
Proof.
  cbv zeta.
  destruct (logOrSend_frame env method hookMode args st) as (Ht & _).
  split; [exact Ht|]. split; [apply logOrSend_events|].
  unfold channel_sink at 2. rewrite logOrSend_context.
  destruct (writeToTarget_context env method (formattedMessage args) st)
    as (Hout & Herr & _ & Hgrow).
  auto.
Qed.

(** C6, as amended. While the surface the engine holds is the
    synthesized one, for the label [L] of the call. [time(L)] with [L]
    registered writes the line [LOG: Timer 'L' already exists] to the
    sink of the error channel (a string sink grows by the line and a
    line break, a function sink is called once with the line), leaves
    [stdout] alone and leaves the registry, hence the start of [L], as
    it was. [timeEnd(L)] with [L] registered removes the entry and
    writes to the sink of the standard channel the line of
    [L: <elapsed>ms], the elapsed time being the clock reading less
    the start, leaving [stderr] alone. A [timeEnd(L)] right after it
    writes [LOG: Timer 'L' does not exist] to the sink of the error
    channel and leaves the registry as it is. *)
Theorem timer_protocol (st : State) (hookMode : bool) (args : list JsVal) (start : Z) :
  console st = DefaultConsole hookMode ->
  timers st !! label_of args = Some start ->
  let L := label_of args in
  let exists_report := "Timer '" +:+ L +:+ "' already exists" in
  let missing_report := "Timer '" +:+ L +:+ "' does not exist" in
  let duration := (Date_now env (ticks st) - start)%Z in
  let elapsed_report := L +:+ ": " +:+ number_to_string duration +:+ "ms" in
  let again := snd (console_time env args st) in
  let ended := snd (console_timeEnd env args st) in
  let twice := snd (console_timeEnd env args ended) in
  (console_time env args st = logOrSend env "error" hookMode [VStr exists_report] st
   /\ timers again = timers st
   /\ (forall acc, stderr (context st) = VStr acc ->
         stderr (context again) = VStr (acc +:+ ("LOG: " +:+ exists_report) +:+ newline))
   /\ events again
      = events st ++ sink_calls "error" ("LOG: " +:+ exists_report) st
                  ++ hook_calls "error" hookMode [VStr exists_report] st
   /\ stdout (context again) = stdout (context st))
  /\ (console_timeEnd env args st
      = logOrSend env "log" hookMode [VStr elapsed_report]
          (set_timers (delete L (timers st)) (tick st))
      /\ timers ended = delete L (timers st)
      /\ timers ended !! L = None
      /\ (forall acc, stdout (context st) = VStr acc ->
            stdout (context ended)
            = VStr (acc +:+ formattedMessage [VStr elapsed_report] +:+ newline))
      /\ events ended
         = events st ++ sink_calls "log" (formattedMessage [VStr elapsed_report]) st
                     ++ hook_calls "log" hookMode [VStr elapsed_report] st
      /\ stderr (context ended) = stderr (context st))
  /\ (console_timeEnd env args ended
      = logOrSend env "error" hookMode [VStr missing_report] ended
      /\ timers twice = timers ended
      /\ (forall acc, stderr (context ended) = VStr acc ->
            stderr (context twice) = VStr (acc +:+ ("LOG: " +:+ missing_report) +:+ newline))
      /\ events twice
         = events ended ++ sink_calls "error" ("LOG: " +:+ missing_report) ended
                        ++ hook_calls "error" hookMode [VStr missing_report] ended).
Proof.
  intros Hc Hreg L exists_report missing_report duration elapsed_report again ended twice.
  assert (Hline1 : formattedMessage [VStr exists_report] = "LOG: " +:+ exists_report)
    by exact (timer_report_line L " already exists" "s" eq_refl eq_refl).
  assert (Hline2 : formattedMessage [VStr missing_report] = "LOG: " +:+ missing_report)
    by exact (timer_report_line L " does not exist" "t" eq_refl eq_refl).
  assert (Htime : console_time env args st
                  = logOrSend env "error" hookMode [VStr exists_report] st).
  { unfold console_time, bind, gets. rewrite Hreg.
    now rewrite (this_console_call_default env hookMode). }
  assert (Hend : console_timeEnd env args st
                 = logOrSend env "log" hookMode [VStr elapsed_report]
                     (set_timers (delete L (timers st)) (tick st))).
  { unfold console_timeEnd, bind, gets. rewrite Hreg.
    unfold read_clock, modify. simpl.
    now rewrite (this_console_call_default env hookMode). }
  destruct (logOrSend_effect "error" hookMode [VStr exists_report] st)
    as (A1 & A2 & A3 & _ & A5).
  destruct (logOrSend_effect "log" hookMode [VStr elapsed_report]
              (set_timers (delete L (timers st)) (tick st)))
    as (B1 & B2 & _ & B4 & B5).
  destruct (logOrSend_frame env "log" hookMode [VStr elapsed_report]
              (set_timers (delete L (timers st)) (tick st))) as (_ & Bc & _).
  assert (Htimers : timers ended = delete L (timers st))
    by (unfold ended; rewrite Hend; exact B1).
  assert (Hconsole : console ended = DefaultConsole hookMode)
    by (unfold ended; rewrite Hend, Bc; exact Hc).
  assert (Hgone : timers ended !! L = None)
    by (rewrite Htimers; apply lookup_delete_eq).
  assert (Htwice : console_timeEnd env args ended
                   = logOrSend env "error" hookMode [VStr missing_report] ended).
  { unfold console_timeEnd, bind, gets. unfold L in Hgone. rewrite Hgone.
    now rewrite (this_console_call_default env hookMode). }
  destruct (logOrSend_effect "error" hookMode [VStr missing_report] ended)
    as (C1 & C2 & _ & _ & C5).
  split; [|split].
  - split; [exact Htime|]. unfold again. rewrite Htime.
    split; [exact A1|]. split; [|split].
    + intros acc Hacc. rewrite <- Hline1. exact (A5 acc Hacc).
    + rewrite <- Hline1. exact A2.
    + exact (A3 eq_refl).
  - split; [exact Hend|]. split; [exact Htimers|]. split; [exact Hgone|].
    unfold ended. rewrite Hend. split; [|split].
    + intros acc Hacc. exact (B5 acc Hacc).
    + exact B2.
    + exact (B4 eq_refl).
  - split; [exact Htwice|]. unfold twice. rewrite Htwice.
    split; [exact C1|]. split.
    + intros acc Hacc. rewrite <- Hline2. exact (C5 acc Hacc).
    + rewrite <- Hline2. exact C2.
Qed.

End TimerProtocol.

(** ** Runs of the further properties *)

Section FurtherRuns.
Import JsString Runs.

Lemma surface_call_keeps_configuration_witness :
  "trace" <> "time" /\ "trace" <> "timeEnd"
  /\ same_configuration timing (snd (surface_call env0 "trace" [VStr "t"] timing))
  /\ timers (snd (surface_call env0 "trace" [VStr "t"] timing)) = timers timing.
Proof.
  assert (H1 : "trace" <> "time") by discriminate.
  assert (H2 : "trace" <> "timeEnd") by discriminate.
  destruct (surface_call_keeps_configuration env0 "trace" [VStr "t"] timing) as (Hcfg & Ht).
  split; [exact H1|]. split; [exact H2|]. split; [exact Hcfg | exact (Ht H1 H2)].
Defined.

Lemma log_touches_one_channel_witness :
  is_error_method "warn" = true
  /\ channel_sink "warn" fresh = VStr ""
  /\ stdout (context (snd (logOrSend env0 "warn" true [VStr "w"] fresh)))
     = stdout (context fresh)
  /\ channel_sink "warn" (snd (logOrSend env0 "warn" true [VStr "w"] fresh))
     = VStr ("" +:+ formattedMessage [VStr "w"] +:+ newline).
Proof.
  assert (H1 : is_error_method "warn" = true) by reflexivity.
  assert (H2 : channel_sink "warn" fresh = VStr "") by reflexivity.
  destruct (log_touches_one_channel env0 "warn" true [VStr "w"] fresh)
    as (Hout & _ & _ & Hgrow).
  split; [exact H1|]. split; [exact H2|]. split; [exact (Hout H1) | exact (Hgrow "" H2)].
Defined.

Lemma log_all_accumulates_witness :
  channel_sink "log" fresh = VStr ""
  /\ channel_sink "log" (log_all env0 "log" false [[VStr "a"]; [VNum 2; VStr "b"]] fresh)
     = VStr ("" +:+ lines_of [[VStr "a"]; [VNum 2; VStr "b"]]).
Proof.
  assert (H : channel_sink "log" fresh = VStr "") by reflexivity.
  split; [exact H|].
  exact (log_all_accumulates env0 "log" false [[VStr "a"]; [VNum 2; VStr "b"]] fresh "" H).
Defined.

Lemma hook_skips_missing_method_witness :
  (forall f, get_member (originalUnpatchedConsoleInstance hooked) "info" <> VFun f)
  /\ logOrSend env0 "info" true [VStr "i"] hooked
     = logOrSend env0 "info" false [VStr "i"] hooked.
Proof.
  assert (H : forall f, get_member (originalUnpatchedConsoleInstance hooked) "info" <> VFun f)
    by (intros f; vm_compute; discriminate).
  split; [exact H|].
  exact (hook_skips_missing_method env0 "info" true [VStr "i"] hooked H).
Defined.

Lemma plain_methods_by_channel_witness :
  In "groupEnd" plain_methods
  /\ default_method env0 "groupEnd" false [VStr "g"] fresh
     = default_method env0 "log" false [VStr "g"] fresh.
Proof.
  assert (H : In "groupEnd" plain_methods) by (simpl; tauto).
  split; [exact H|].
  exact (plain_methods_by_channel env0 "groupEnd" [VStr "g"] fresh H).
Defined.

Lemma time_then_timeEnd_witness :
  console fresh = DefaultConsole false
  /\ timers fresh !! label_of [VStr "job"] = None
  /\ timers (snd (console_timeEnd env0 [VStr "job"]
                    (snd (console_time env0 [VStr "job"] fresh)))) = timers fresh.
Proof.
  assert (H1 : console fresh = DefaultConsole false) by reflexivity.
  assert (H2 : timers fresh !! label_of [VStr "job"] = None) by reflexivity.
  split; [exact H1|]. split; [exact H2|].
  exact (proj2 (proj2 (proj2 (time_then_timeEnd env0 fresh false [VStr "job"] H1 H2)))).
Defined.

Lemma timeEnd_unregistered_witness :
  console fresh = DefaultConsole false
  /\ timers fresh !! label_of [] = None
  /\ console_timeEnd env0 [] fresh
     = logOrSend env0 "error" false
         [VStr ("Timer '" +:+ label_of [] +:+ "' does not exist")] fresh.
Proof.
  assert (H1 : console fresh = DefaultConsole false) by reflexivity.
  assert (H2 : timers fresh !! label_of [] = None) by reflexivity.
  split; [exact H1|]. split; [exact H2|].
  exact (proj1 (timeEnd_unregistered env0 fresh false [] H1 H2)).
Defined.

Lemma proxy_transparent_call_witness :
  console (construct heap0 None (Some 0) false) = ProxyConsole 0 false
  /\ "error" <> "assert"
  /\ get_prop (heap (construct heap0 None (Some 0) false)) 0 "error" = VFun f_error
  /\ surface_call env0 "error" [VStr "e"] (construct heap0 None (Some 0) false)
     = (Returned (VStr "done"),
        add_event (Call f_error RSurface [VStr "e"]) (construct heap0 None (Some 0) false)).
Proof.
  assert (H1 : console (construct heap0 None (Some 0) false) = ProxyConsole 0 false)
    by reflexivity.
  assert (H2 : "error" <> "assert") by discriminate.
  assert (H3 : get_prop (heap (construct heap0 None (Some 0) false)) 0 "error" = VFun f_error)
    by reflexivity.
  split; [exact H1|]. split; [exact H2|]. split; [exact H3|].
  exact (proxy_transparent_call env0 _ 0 "error" f_error [VStr "e"] H1 H2 H3).
Defined.

Lemma missing_member_throws_witness :
  console hooked = ProxyConsole 0 true
  /\ "table" <> "assert"
  /\ (forall f, get_prop (heap hooked) 0 "table" <> VFun f)
  /\ surface_call env0 "table" [] hooked = (Thrown "TypeError: not a function", hooked).
Proof.
  assert (H1 : console hooked = ProxyConsole 0 true) by reflexivity.
  assert (H2 : "table" <> "assert") by discriminate.
  assert (H3 : forall f, get_prop (heap hooked) 0 "table" <> VFun f)
    by (intros f; vm_compute; discriminate).
  split; [exact H1|]. split; [exact H2|]. split; [exact H3|].
  exact (missing_member_throws env0 hooked 0 true "table" [] H1 H2 H3).
Defined.

Lemma clear_resets_accumulators_witness :
  stdout (context (snd (console_clear env0
            (snd (logOrSend env0 "log" false [VStr "x"] fresh))))) = VStr "".
Proof.
  destruct (clear_resets_accumulators env0
              (snd (logOrSend env0 "log" false [VStr "x"] fresh))) as ((Hout & _) & _).
  apply (Hout ("LOG: x" +:+ newline)). reflexivity.
Defined.

Lemma object_serialized_in_line_witness :
  exists json,
    JSON_stringify (VObj [("a", VNum 1)]) = Some json
    /\ includes (formattedMessage [VStr "x"; VObj [("a", VNum 1)]; VStr "y"]) json = true.
Proof.
  apply (object_serialized_in_line [VStr "x"; VObj [("a", VNum 1)]; VStr "y"]).
  - simpl. tauto.
  - reflexivity.
Defined.

Lemma table_line_witness :
  exists json,
    JSON_stringify (VArr [VNum 1; VNum 2]) = Some json
    /\ console_table env0 false [VArr [VNum 1; VNum 2]] fresh
       = logOrSend env0 "table" false [VStr json] fresh
    /\ formattedMessage [VStr json] = "LOG: " +:+ json
    /\ formattedMessage [VArr [VNum 1; VNum 2]] = "LOG: " +:+ json.
Proof. apply (table_line env0 false (VArr [VNum 1; VNum 2]) fresh). reflexivity. Defined.

Lemma assert_replaces_first_placeholder_witness :
  exists before after,
    "got %o, not %o" = before +:+ "%o" +:+ after
    /\ includes before "%o" = false
    /\ assert_message [VStr "got %o, not %o"; VNum 3; VNum 4]
       = "Assertion failed: " +:+ before +:+ "3" +:+ after.
Proof.
  apply (assert_replaces_first_placeholder "got %o, not %o" (VNum 3) [VNum 4] "3");
    reflexivity.
Defined.

Lemma assert_lines_agree_witness :
  formattedMessage [VStr (assert_message [VStr "n is"; VNum 3])]
  = formattedMessage [VStr "Assertion failed:"; VStr "n is"; VNum 3].
Proof.
  apply (assert_lines_agree [VStr "n is"; VNum 3]).
  - repeat constructor; discriminate.
  - intros formatStr [= <-]. reflexivity.
Defined.

Lemma timer_protocol_witness :
  console timing = DefaultConsole false
  /\ timers timing !! label_of [VStr "job"] = Some 1000%Z
  /\ timers (snd (console_time env0 [VStr "job"] timing)) = timers timing
  /\ stderr (context (snd (console_time env0 [VStr "job"] timing)))
     = VStr ("" +:+ ("LOG: " +:+ "Timer '" +:+ "job" +:+ "' already exists") +:+ newline)
  /\ timers (snd (console_timeEnd env0 [VStr "job"] timing)) !! "job" = None.
Proof.
  assert (H1 : console timing = DefaultConsole false) by reflexivity.
  assert (H2 : timers timing !! label_of [VStr "job"] = Some 1000%Z) by reflexivity.
  split; [exact H1|]. split; [exact H2|].
  destruct (timer_protocol env0 timing false [VStr "job"] 1000%Z H1 H2)
    as ((_ & Hkept & Hwritten & _) & (_ & _ & Hgone & _) & _).
  split; [exact Hkept|]. split; [exact (Hwritten "" eq_refl) | exact Hgone].
Defined.

(** C6 as it is worded does not hold once the engine has been patched
    with a logger: [time] on the synthesized surface the caller kept
    reports through the proxy, that is by a call of the logger's
    [error], and the error channel is left as it was. *)
Lemma timer_report_bypasses_channel :
  ~ time_reports_on_error_channel env0 timing_patched [VStr "job"]
  /\ snd (console_time env0 [VStr "job"] timing_patched)
     = add_event (Call f_error RSurface [VStr "Timer 'job' already exists"]) timing_patched.
Proof.
  split; [|reflexivity].
  intros H. specialize (H 1000%Z "" eq_refl eq_refl).
  vm_compute in H. discriminate H.
Qed.



Lemma patch_frame_witness :
  get_member (originalUnpatchedConsoleInstance
                (patch None None false
                   (assign_member 0 "log" (VFun f_table)
                      (construct heap0 None (Some 0) true)))) "log" = VFun f_log
  /\ get_prop heap0 0 "log" = VFun f_log.
Proof.
  assert (H : get_member (originalUnpatchedConsoleInstance
                (patch None None false
                   (assign_member 0 "log" (VFun f_table)
                      (construct heap0 None (Some 0) true)))) "log" = VFun f_log)
    by reflexivity.
  split; [exact H|].
  destruct (patch_frame fresh default_context 0 true None None) as (_ & _ & _ & _ & Hcap).
  destruct (Hcap heap0 "log" (VFun f_table) "log") as (_ & _ & Hfound).
  exact (Hfound f_log H).
Defined.

(** C8 as it is worded does not hold for the capture: the methods of
    a class instance are on its prototype, the spread copies none of
    them, and the snapshot has no [log] although the logger has
    one. *)
Lemma class_logger_not_captured :
  ~ captures_methods heap0 None 1 true
  /\ get_prop heap0 1 "log" = VFun f_log
  /\ originalUnpatchedConsoleInstance (construct heap0 None (Some 1) true) = ∅.
Proof.
  split; [|split; reflexivity].
  intros H. specialize (H "log" f_log eq_refl). vm_compute in H. discriminate H.
Qed.

Lemma assert_after_patch_witness :
  truthy (VBool false) = false
  /\ events (snd (surface_call env0 "assert" [VBool false; VStr "x"]
                    (patch None (Some 1) true (construct heap0 None (Some 0) false))))
     = [Call f_log RSnapshot [VStr "Assertion failed:"; VStr "x"]]
  /\ events (snd (surface_call env0 "assert" [VBool false; VStr "x"]
                    (patch None (Some 0) true (construct heap0 None (Some 1) false))))
     = [].
Proof.
  assert (H : truthy (VBool false) = false) by reflexivity.
  split; [exact H|]. split.
  - exact (proj1 (assert_after_patch env0 heap0 None 0 1 false (VBool false) [VStr "x"] H)).
  - exact (proj1 (assert_after_patch env0 heap0 None 1 0 false (VBool false) [VStr "x"] H)).
Defined.

Lemma from_synthesis_captures_nothing_witness :
  from_synthesis env0
    (snd (surface_call env0 "log" [VStr "x"] (set_heap heap0 synthesized_patched)))
  /\ originalUnpatchedConsoleInstance
       (snd (surface_call env0 "log" [VStr "x"] (set_heap heap0 synthesized_patched))) = ∅.
Proof.
  assert (H : from_synthesis env0
                (snd (surface_call env0 "log" [VStr "x"] (set_heap heap0 synthesized_patched))))
    by (apply then_call, then_heap, then_patch, synthesized).
  split; [exact H|].
  exact (proj1 (from_synthesis_captures_nothing env0 _ H)).
Defined.

End FurtherRuns.
